(** * EV Charging Map API: the station handlers of [main.py]

    A shallow embedding of the request handlers of [src/main.py] and of the
    [Station] schema of [src/schemas.py], with the properties of the filter
    construction, the bounding-box search, the identifier lookup and the
    seeding that the specification states.

    Modelling conventions.
    - A Python [float] is modelled by the real number it denotes ([R]):
      comparisons are exact in that model, arithmetic is unrounded, and
      NaN and the infinities are outside it.  The divisor of the longitude
      delta is computed a second time in binary64 ([lng_divisor_f]), with
      rounding, NaN and the infinities, [math.cos] being a parameter there.
    - Handlers run in a state-and-exception monad [M] over a [World] that
      holds the module-level handle [db] and a log of the store calls made.
    - The document store (pymongo) is an external collaborator.  Its query
      language is interpreted for the operators the handlers build
      ([$gte], [$lte], [$regex]/[$options], [$or], equality on a scalar or
      array field); its regular-expression engine is a parameter
      ([regex_search]) of the development, and a pattern the store would
      reject as ill-formed is outside the model.  A call to the store may
      fail: the failures to come are part of the store's state.
    - The box of the near search is given twice: in exact arithmetic
      ([stations_near]) and with the rounding of each operation
      ([stations_near_r]). *)

From Stdlib Require Import Reals Lra Lia List String Ascii ZArith NArith Bool.
From Stdlib Require Import Floats.
Import ListNotations.

Open Scope string_scope.
Open Scope R_scope.

(** ** Exceptions and outcomes *)

Inductive Exception : Type :=
| HTTPException (status_code : Z) (detail : string)
| RequestValidationError (param : string)
| InvalidId
| PyMongoError
| TypeError
| ZeroDivisionError.

Inductive Outcome (A : Type) : Type :=
| Return (a : A)
| Raise (e : Exception).

Arguments Return {A} a.
Arguments Raise {A} e.

(** What the framework sends for an exception that leaves a handler: an
    [HTTPException] carries its own status and detail, a failed [Query]
    constraint is a 422, anything else is an internal server error. *)
Definition status_of (e : Exception) : Z :=
  match e with
  | HTTPException status_code _ => status_code
  | RequestValidationError _ => 422
  | _ => 500
  end.

Definition detail_of (e : Exception) : string :=
  match e with
  | HTTPException _ detail => detail
  | RequestValidationError param => param
  | _ => "Internal Server Error"
  end.

Definition response_status {A} (o : Outcome A) : Z :=
  match o with
  | Return _ => 200
  | Raise e => status_of e
  end.

(** ** Real-number comparisons as booleans *)

Definition Rleb (x y : R) : bool := if Rle_dec x y then true else false.
Definition Rltb (x y : R) : bool := if Rlt_dec x y then true else false.

(** Python's [max(a, b)] keeps its first argument unless the second is
    strictly greater. *)
Definition pymax (a b : R) : R := if Rlt_dec a b then b else a.

(** Python's float division raises on a zero divisor. *)
Definition truediv (x y : R) : Outcome R :=
  if Req_dec_T y 0 then Raise ZeroDivisionError else Return (x / y).

(** ** schemas.py *)

Inductive ConnectorType : Type :=
| CCS2 | CHAdeMO | Type2 | Type3 | Tesla | GB_T.

Definition connector_name (c : ConnectorType) : string :=
  match c with
  | CCS2 => "CCS2"
  | CHAdeMO => "CHAdeMO"
  | Type2 => "Type2"
  | Type3 => "Type3"
  | Tesla => "Tesla"
  | GB_T => "GB/T"
  end.

Record Station : Type := mkStation {
  name : string;
  network : option string;
  latitude : R;
  longitude : R;
  address : option string;
  city : option string;
  state : option string;
  country : option string;
  postal_code : option string;
  connectors : list ConnectorType;
  power_kw : option R;
  price : option string;
  available : option bool;
  amenities : list string;
  phone : option string;
  hours : option string
}.

(** The field constraints of [Station]: [latitude] in [-90, 90],
    [longitude] in [-180, 180], [power_kw >= 0] when given. *)
Definition Station_valid (s : Station) : Prop :=
  -90 <= latitude s <= 90 /\
  -180 <= longitude s <= 180 /\
  match power_kw s with Some p => 0 <= p | None => True end.

(** ** Identifiers *)

Definition Oid : Type := string.

Definition is_hex (c : ascii) : bool :=
  let n := nat_of_ascii c in
  ((48 <=? n) && (n <=? 57) || (65 <=? n) && (n <=? 70) ||
   (97 <=? n) && (n <=? 102))%nat.

Definition lower (c : ascii) : ascii :=
  let n := nat_of_ascii c in
  if ((65 <=? n) && (n <=? 90))%nat then ascii_of_nat (n + 32) else c.

Fixpoint string_forall (p : ascii -> bool) (s : string) : bool :=
  match s with
  | EmptyString => true
  | String c r => p c && string_forall p r
  end.

Fixpoint string_map (f : ascii -> ascii) (s : string) : string :=
  match s with
  | EmptyString => EmptyString
  | String c r => String (f c) (string_map f r)
  end.

(** [bson.ObjectId(s)] on a string: a 24-character hexadecimal string, or
    else [InvalidId].  The identifier prints back in lower case.  The
    library hands a string of length 24 to [bytes.fromhex], which also lets
    ASCII whitespace through; such strings are outside the model, and the
    properties below speak of identifiers of another length or of 24
    hexadecimal digits. *)
Definition well_formed_id (s : string) : bool :=
  (String.length s =? 24)%nat && string_forall is_hex s.

Definition ObjectId (s : string) : Outcome Oid :=
  if well_formed_id s then Return (string_map lower s) else Raise InvalidId.

Definition hex_digit (n : N) : ascii :=
  if (n <? 10)%N then ascii_of_N (48 + n) else ascii_of_N (87 + n).

Fixpoint hex_of (digits : nat) (n : N) (acc : string) : string :=
  match digits with
  | O => acc
  | S k => hex_of k (n / 16)%N (String (hex_digit (n mod 16)%N) acc)
  end.

(** The identifier the store assigns to its [n]-th insertion. *)
Definition fresh_oid (n : N) : Oid := hex_of 24 n EmptyString.

(** ** Stored documents and output records *)

Record Doc : Type := mkDoc {
  _id : Oid;
  fields : Station
}.

(** [class StationOut(Station): id: str] *)
Record StationOut : Type := mkStationOut {
  id : string;
  station_of : Station
}.

Inductive FieldValue : Type :=
| VString (s : string)
| VNumber (x : R)
| VBool (b : bool)
| VStrings (l : list string)
| VNull
| VMissing.

Definition of_option {A} (f : A -> FieldValue) (o : option A) : FieldValue :=
  match o with
  | Some a => f a
  | None => VNull
  end.

(** The value a stored document holds under a key. *)
Definition get_field (key : string) (d : Doc) : FieldValue :=
  let s := fields d in
  if key =? "_id" then VString (_id d)
  else if key =? "name" then VString (name s)
  else if key =? "network" then of_option VString (network s)
  else if key =? "latitude" then VNumber (latitude s)
  else if key =? "longitude" then VNumber (longitude s)
  else if key =? "address" then of_option VString (address s)
  else if key =? "city" then of_option VString (city s)
  else if key =? "state" then of_option VString (state s)
  else if key =? "country" then of_option VString (country s)
  else if key =? "postal_code" then of_option VString (postal_code s)
  else if key =? "connectors" then VStrings (map connector_name (connectors s))
  else if key =? "power_kw" then of_option VNumber (power_kw s)
  else if key =? "price" then of_option VString (price s)
  else if key =? "available" then of_option VBool (available s)
  else if key =? "amenities" then VStrings (amenities s)
  else if key =? "phone" then of_option VString (phone s)
  else if key =? "hours" then of_option VString (hours s)
  else VMissing.

(** ** Filter expressions

    The dictionaries the handlers pass to [find]: a key maps either to a
    condition on that field or, under ["$or"], to a list of alternative
    dictionaries. *)

Inductive Condition : Type :=
| Equals (v : string)
| Compare (gte lte : option R)
| Regex (pattern options : string).

Inductive Value : Type :=
| Cond (c : Condition)
| Alternatives (alts : list (list (string * Condition))).

Definition Dict : Type := list (string * Value).

(** [d[key] = v] on an insertion-ordered dictionary. *)
Fixpoint setitem (key : string) (v : Value) (d : Dict) : Dict :=
  match d with
  | [] => [(key, v)]
  | (k, v') :: r =>
      if key =? k then (key, v) :: r else (k, v') :: setitem key v r
  end.

Fixpoint getitem (key : string) (d : Dict) : option Value :=
  match d with
  | [] => None
  | (k, v) :: r => if key =? k then Some v else getitem key r
  end.

(** Python truthiness of an [Optional[str]]: [None] and [""] are false. *)
Definition truthy (o : option string) : option string :=
  match o with
  | Some EmptyString => None
  | _ => o
  end.

(** ** The filter builder of [list_stations] (main.py, lines 95-106) *)

Definition with_connector (connector : option string) (d : Dict) : Dict :=
  match truthy connector with
  | Some c => setitem "connectors" (Cond (Equals c)) d
  | None => d
  end.

Definition with_min_power (min_power : option R) (d : Dict) : Dict :=
  match min_power with
  | Some p => setitem "power_kw" (Cond (Compare (Some p) None)) d
  | None => d
  end.

Definition with_city (city : option string) (d : Dict) : Dict :=
  match truthy city with
  | Some c => setitem "city" (Cond (Regex c "i")) d
  | None => d
  end.

Definition with_q (q : option string) (d : Dict) : Dict :=
  match truthy q with
  | Some s =>
      setitem "$or"
        (Alternatives [[("name", Regex s "i")]; [("address", Regex s "i")]]) d
  | None => d
  end.

Definition build_filter (connector : option string) (min_power : option R)
    (city q : option string) : Dict :=
  with_q q (with_city city (with_min_power min_power (with_connector connector []))).

(** ** The bounding box of [stations_near] (main.py, lines 123-131) *)

Definition lat_delta (radius_km : R) : Outcome R := truediv radius_km 111.0.

Definition lng_divisor (lat : R) : R :=
  111.0 * pymax 0.01 (Rabs (cos (lat * PI / 180))).

Definition lng_delta (lat radius_km : R) : Outcome R :=
  truediv radius_km (lng_divisor lat).

Definition box_filter (lat lng dlat dlng : R) : Dict :=
  [ ("latitude", Cond (Compare (Some (lat - dlat)) (Some (lat + dlat))));
    ("longitude", Cond (Compare (Some (lng - dlng)) (Some (lng + dlng)))) ].

(** The same computation on binary64 floats.  [hundredth] is the double
    nearest to 0.01 and [pi_f] is [math.pi]; [cos_f] stands for [math.cos],
    which belongs to the C library. *)
Definition pymax_f (a b : float) : float := if PrimFloat.ltb a b then b else a.

Definition truediv_f (x y : float) : Outcome float :=
  if PrimFloat.eqb y 0 then Raise ZeroDivisionError else Return (x / y)%float.

Definition hundredth : float := 0x1.47ae147ae147bp-7%float.

Definition pi_f : float := 0x1.921fb54442d18p+1%float.

Definition lng_divisor_f (cos_f : float -> float) (lat : float) : float :=
  (111 * pymax_f hundredth (PrimFloat.abs (cos_f (lat * pi_f / 180))))%float.

Definition lng_delta_f (cos_f : float -> float) (lat radius_km : float)
    : Outcome float :=
  truediv_f radius_km (lng_divisor_f cos_f lat).

(** A binary64 value that is neither a zero nor a NaN. *)
Inductive nonzero : spec_float -> Prop :=
| nonzero_finite s m e : nonzero (S754_finite s m e)
| nonzero_infinity s : nonzero (S754_infinity s).

(** ** The store *)

Inductive StoreCall : Type :=
| CallFind | CallFindOne | CallCount | CallInsert.

(** The [station] collection in insertion order, the number of identifiers
    handed out so far, and the outages to come: each call to the store takes
    the head of [outages] and fails when it is [true]. *)
Record Database : Type := mkDatabase {
  station : list Doc;
  issued : N;
  outages : list bool
}.

Record World : Type := mkWorld {
  db : option Database;
  calls : list StoreCall
}.

Definition M (A : Type) : Type := World -> Outcome A * World.

Definition ret {A} (a : A) : M A := fun w => (Return a, w).

Definition raise {A} (e : Exception) : M A := fun w => (Raise e, w).

Definition bind {A B} (m : M A) (k : A -> M B) : M B :=
  fun w =>
    match m w with
    | (Return a, w') => k a w'
    | (Raise e, w') => (Raise e, w')
    end.

Definition lift {A} (o : Outcome A) : M A := fun w => (o, w).

(** [try: body  except Exception: handler] *)
Definition try_except {A} (body : M A) (handler : Exception -> M A) : M A :=
  fun w =>
    match body w with
    | (Return a, w') => (Return a, w')
    | (Raise e, w') => handler e w'
    end.

Declare Scope monad_scope.
Delimit Scope monad_scope with monad.
Notation "x <- m ;; k" := (bind m (fun x => k))
  (at level 100, m at next level, right associativity) : monad_scope.
Notation "m ;;; k" := (bind m (fun _ => k))
  (at level 100, right associativity) : monad_scope.
Open Scope monad_scope.

Fixpoint mapM {A B} (f : A -> M B) (l : list A) : M (list B) :=
  match l with
  | [] => ret []
  | a :: r => b <- f a ;; bs <- mapM f r ;; ret (b :: bs)
  end.

(** [cursor.limit(n)]: zero means no limit, a negative [n] counts as [-n]. *)
Definition cursor_limit {A} (n : Z) (l : list A) : list A :=
  if (n =? 0)%Z then l else firstn (Z.abs_nat n) l.

Definition next_outage (d : Database) : bool * Database :=
  match outages d with
  | [] => (false, d)
  | b :: r => (b, mkDatabase (station d) (issued d) r)
  end.

(** One call to the store: logged, failing on an outage, otherwise running
    [op] on the database.  With no handle, [db["station"]] is a [TypeError]. *)
Definition store_call {A} (c : StoreCall) (op : Database -> A * Database) : M A :=
  fun w =>
    match db w with
    | None => (Raise TypeError, w)
    | Some d =>
        let (down, d1) := next_outage d in
        if down then (Raise PyMongoError, mkWorld (Some d1) (calls w ++ [c]))
        else let (a, d2) := op d1 in
             (Return a, mkWorld (Some d2) (calls w ++ [c]))
    end.

(** [if db is None: raise HTTPException(status_code=500, ...)] *)
Definition unconfigured : Exception :=
  HTTPException 500 "Database not configured".

Definition require_db : M unit :=
  fun w =>
    match db w with
    | None => (Raise unconfigured, w)
    | Some _ => (Return tt, w)
    end.

(** [_to_station_out] (main.py, lines 76-81).  Building the [StationOut]
    checks the record against the schema once more; the stored records are
    taken to meet it ([all_valid]), which every handler keeps. *)
Definition _to_station_out (doc : option Doc) : M StationOut :=
  match doc with
  | None => raise (HTTPException 404 "Station not found")
  | Some d => ret (mkStationOut (_id d) (fields d))
  end.

(** ** Substring search

    [contains_ci needle hay]: [needle] occurs in [hay], letters compared
    without case.  [wildcard_search] is a regular-expression search for the
    patterns made of ordinary characters and the wildcard [.] (any character
    but a line feed); it instantiates the store's engine in the examples. *)

Definition same_char (ci : bool) (p c : ascii) : bool :=
  if ci then Ascii.eqb (lower p) (lower c) else Ascii.eqb p c.

Fixpoint prefix_ci (p s : string) : bool :=
  match p, s with
  | EmptyString, _ => true
  | String a p', String c s' => same_char true a c && prefix_ci p' s'
  | String _ _, EmptyString => false
  end.

Fixpoint contains_ci (needle hay : string) : bool :=
  prefix_ci needle hay ||
  match hay with
  | EmptyString => false
  | String _ r => contains_ci needle r
  end.

Definition item_matches (ci : bool) (p c : ascii) : bool :=
  if Ascii.eqb p "." then negb (Ascii.eqb c "010") else same_char ci p c.

Fixpoint match_here (ci : bool) (p s : string) : bool :=
  match p, s with
  | EmptyString, _ => true
  | String a p', String c s' => item_matches ci a c && match_here ci p' s'
  | String _ _, EmptyString => false
  end.

Fixpoint search_from (ci : bool) (p s : string) : bool :=
  match_here ci p s ||
  match s with
  | EmptyString => false
  | String _ r => search_from ci p r
  end.

Fixpoint has_flag (f : ascii) (options : string) : bool :=
  match options with
  | EmptyString => false
  | String c r => Ascii.eqb f c || has_flag f r
  end.

Definition wildcard_search (pattern options subject : string) : bool :=
  search_from (has_flag "i" options) pattern subject.

Section Store.

(** The store's regular-expression search: pattern, options, subject. *)
Variable regex_search : string -> string -> string -> bool.

Definition holds (c : Condition) (v : FieldValue) : bool :=
  match c, v with
  | Equals s, VString t => s =? t
  | Equals s, VStrings l => existsb (String.eqb s) l
  | Compare lo hi, VNumber x =>
      match lo with Some a => Rleb a x | None => true end &&
      match hi with Some b => Rleb x b | None => true end
  | Regex p o, VString t => regex_search p o t
  | Regex p o, VStrings l => existsb (regex_search p o) l
  | _, _ => false
  end.

Definition all_hold (alt : list (string * Condition)) (d : Doc) : bool :=
  forallb (fun kc => holds (snd kc) (get_field (fst kc) d)) alt.

Definition clause_holds (key : string) (v : Value) (d : Doc) : bool :=
  match v with
  | Cond c => holds c (get_field key d)
  | Alternatives alts =>
      if key =? "$or" then existsb (fun alt => all_hold alt d) alts else false
  end.

(** A document matches a filter when every entry holds; the empty filter
    matches everything. *)
Definition matches (f : Dict) (d : Doc) : bool :=
  forallb (fun kv => clause_holds (fst kv) (snd kv) d) f.

Definition find (f : Dict) (n : Z) : M (list Doc) :=
  store_call CallFind
    (fun d => (cursor_limit n (filter (matches f) (station d)), d)).

Definition find_one (oid : Oid) : M (option Doc) :=
  store_call CallFindOne
    (fun d => (List.find (fun x => _id x =? oid) (station d), d)).

Definition count_documents (f : Dict) : M Z :=
  store_call CallCount
    (fun d => (Z.of_nat (List.length (filter (matches f) (station d))), d)).

(** Modelled from the spec: [create_document] of [database.py], which is not
    among the sources.  The store contract is [insert(collection, record) ->
    id]: the record is appended to the named collection under an identifier
    the store assigns, and that identifier is returned as a string.  With
    the store not wired up the call fails with the 500-class error and its
    fixed message, and nothing is attempted.  Only the [station] collection
    is kept in [Database]. *)
Definition create_document (collection_name : string) (data : Station) : M string :=
  fun w =>
    match db w with
    | None => (Raise unconfigured, w)
    | Some _ =>
        store_call CallInsert
          (fun d =>
             let oid := fresh_oid (issued d) in
             (oid,
              mkDatabase
                (if collection_name =? "station"
                 then station d ++ [mkDoc oid data] else station d)
                (N.succ (issued d)) (outages d))) w
    end.

(** ** Request handlers *)

(** [GET /api/stations] (main.py, lines 84-109) *)
Definition list_stations (connector : option string) (min_power : option R)
    (city q : option string) (limit : Z) : M (list StationOut) :=
  require_db ;;;
  let filter_dict := build_filter connector min_power city q in
  docs <- find filter_dict limit ;;
  mapM (fun d => _to_station_out (Some d)) docs.

(** [GET /api/stations/near] (main.py, lines 112-131) *)
Definition stations_near (lat lng radius_km : R) : M (list StationOut) :=
  require_db ;;;
  dlat <- lift (lat_delta radius_km) ;;
  dlng <- lift (lng_delta lat radius_km) ;;
  let filter_dict := box_filter lat lng dlat dlng in
  docs <- find filter_dict 500 ;;
  mapM (fun d => _to_station_out (Some d)) docs.

(** [POST /api/stations] (main.py, lines 134-137) *)
Definition create_station (station : Station) : M string :=
  create_document "station" station.

(** [GET /api/stations/{station_id}] (main.py, lines 140-148) *)
Definition get_station (station_id : string) : M StationOut :=
  require_db ;;;
  doc <- try_except
           (oid <- lift (ObjectId station_id) ;; find_one oid)
           (fun _ => raise (HTTPException 400 "Invalid station id")) ;;
  _to_station_out doc.

(** [POST /api/seed] (main.py, lines 151-215) *)
Record SeedReport : Type := mkSeedReport {
  inserted : Z;
  message : option string
}.

Definition demo : list Station :=
  [ mkStation "Chargeway - Indiranagar" (Some "Chargeway") 12.9716 77.5946
      (Some "100 Feet Rd, Indiranagar") (Some "Bengaluru") (Some "Karnataka")
      (Some "IN") (Some "560038") [CCS2; Type2] (Some 60) (Some "₹20/kWh")
      (Some true) ["Restrooms"; "Cafe"] (Some "080-123456") (Some "24/7");
    mkStation "Chargeway - BKC" (Some "Chargeway") 19.0678 72.8677
      (Some "Bandra Kurla Complex") (Some "Mumbai") (Some "Maharashtra")
      (Some "IN") (Some "400051") [CCS2] (Some 120) (Some "₹22/kWh")
      (Some true) ["Mall"; "Food Court"] None None;
    mkStation "Chargeway - Cyber City" (Some "Chargeway") 28.4946 77.0888
      (Some "DLF Cyber City") (Some "Gurugram") (Some "Haryana")
      (Some "IN") (Some "122002") [CCS2; CHAdeMO] (Some 50) (Some "₹18/kWh")
      (Some true) ["Parking"; "Restrooms"] None None ].

Fixpoint seed_loop (l : list Station) (inserted : Z) : M Z :=
  match l with
  | [] => ret inserted
  | s :: r => create_document "station" s ;;; seed_loop r (inserted + 1)%Z
  end.

Definition seed_demo_data : M SeedReport :=
  require_db ;;;
  count <- count_documents [] ;;
  if (count >? 0)%Z
  then ret (mkSeedReport 0 (Some "Stations already present"))
  else inserted <- seed_loop demo 0%Z ;; ret (mkSeedReport inserted None).

(** ** Query-parameter constraints

    [limit: int = Query(default=200, ge=1, le=1000)] and the constraints on
    [lat], [lng] and [radius_km]; a request that fails one never reaches the
    handler. *)
Definition Query_limit (limit : option Z) : Outcome Z :=
  match limit with
  | None => Return 200%Z
  | Some n =>
      if ((1 <=? n) && (n <=? 1000))%Z then Return n
      else Raise (RequestValidationError "limit")
  end.

Definition Query_lat (lat : R) : Outcome R :=
  if Rleb (-90) lat && Rleb lat 90 then Return lat
  else Raise (RequestValidationError "lat").

Definition Query_lng (lng : R) : Outcome R :=
  if Rleb (-180) lng && Rleb lng 180 then Return lng
  else Raise (RequestValidationError "lng").

Definition Query_radius_km (radius_km : option R) : Outcome R :=
  match radius_km with
  | None => Return 25
  | Some r =>
      if Rltb 0 r && Rleb r 1000 then Return r
      else Raise (RequestValidationError "radius_km")
  end.

Definition GET_stations (connector : option string) (min_power : option R)
    (city q : option string) (limit : option Z) : M (list StationOut) :=
  n <- lift (Query_limit limit) ;;
  list_stations connector min_power city q n.

Definition GET_stations_near (lat lng : R) (radius_km : option R)
    : M (list StationOut) :=
  lat' <- lift (Query_lat lat) ;;
  lng' <- lift (Query_lng lng) ;;
  r <- lift (Query_radius_km radius_km) ;;
  stations_near lat' lng' r.

(** ** The four constraints, as the specification words them

    Membership of the connector, the inclusive lower bound on [power_kw],
    the search of [city], and the search of [q] in [name] or [address];
    an absent (or empty) parameter constrains nothing. *)

Definition connector_ok (connector : option string) (d : Doc) : bool :=
  match truthy connector with
  | Some c => existsb (String.eqb c) (map connector_name (connectors (fields d)))
  | None => true
  end.

Definition power_at_least (p : R) (d : Doc) : bool :=
  match power_kw (fields d) with
  | Some x => Rleb p x
  | None => false
  end.

Definition power_ok (min_power : option R) (d : Doc) : bool :=
  match min_power with
  | Some p => power_at_least p d
  | None => true
  end.

Definition searched (pattern : string) (field : option string) : bool :=
  match field with
  | Some t => regex_search pattern "i" t
  | None => false
  end.

Definition city_ok (c : option string) (d : Doc) : bool :=
  match truthy c with
  | Some s => searched s (city (fields d))
  | None => true
  end.

Definition q_ok (q : option string) (d : Doc) : bool :=
  match truthy q with
  | Some s => searched s (Some (name (fields d))) || searched s (address (fields d))
  | None => true
  end.

(** Membership in the box of [stations_near], on the raw coordinates. *)
Definition in_box (lat lng dlat dlng : R) (d : Doc) : bool :=
  (Rleb (lat - dlat) (latitude (fields d)) && Rleb (latitude (fields d)) (lat + dlat)) &&
  (Rleb (lng - dlng) (longitude (fields d)) && Rleb (longitude (fields d)) (lng + dlng)).

(** The same document with another power rating. *)
Definition with_power (x : option R) (d : Doc) : Doc :=
  let s := fields d in
  mkDoc (_id d)
    (mkStation (name s) (network s) (latitude s) (longitude s) (address s)
       (city s) (state s) (country s) (postal_code s) (connectors s) x
       (price s) (available s) (amenities s) (phone s) (hours s)).

Definition to_out (d : Doc) : StationOut := mkStationOut (_id d) (fields d).

(** The entry a present parameter adds to a dictionary. *)
Definition entry {A} (o : option A) (key : string) (v : A -> Value) : Dict :=
  match o with
  | Some a => [(key, v a)]
  | None => []
  end.

(** ** Sample stores *)

(** The documents [l] becomes when inserted one by one from counter [n]. *)
Fixpoint number_docs (n : N) (l : list Station) : list Doc :=
  match l with
  | [] => []
  | s :: r => mkDoc (fresh_oid n) s :: number_docs (N.succ n) r
  end.

Definition demo_docs : list Doc := number_docs 0 demo.

Definition fresh_world : World := mkWorld (Some (mkDatabase [] 0 [])) [].

Definition seeded_world : World := mkWorld (Some (mkDatabase demo_docs 3 [])) [].

Definition unconfigured_world : World := mkWorld None [].

(** A station with no power rating. *)
Definition unrated : Station :=
  mkStation "Kerb Post 7" None 51.5 (-0.12) None None None (Some "GB") None
    [Type2] None None (Some true) [] None None.

Definition unrated_world : World :=
  mkWorld (Some (mkDatabase [mkDoc (fresh_oid 0) unrated] 1 [])) [].

(** The seeded store with an outage pending on its next call. *)
Definition outage_world : World := mkWorld (Some (mkDatabase demo_docs 3 [true])) [].

(** The constraint on [q] as the description of the parameter words it:
    [name] or [address] contains [q], letters compared without case. *)
Definition q_contained (q : string) (d : Doc) : bool :=
  contains_ci q (name (fields d)) ||
  match address (fields d) with
  | Some a => contains_ci q a
  | None => false
  end.

(** The records the store of a world holds. *)
Definition stored (w : World) : list Doc :=
  match db w with
  | Some d => station d
  | None => []
  end.

(** Five hundred records at one spot, and one more inserted after them. *)
Definition spot : Station :=
  mkStation "Depot Bay" None 12.9716 77.5946 None (Some "Bengaluru") None
    (Some "IN") None [CCS2] (Some 30) None (Some true) [] None None.

Definition crowd : list Doc :=
  map (fun n => mkDoc (fresh_oid (N.of_nat n)) spot) (seq 0 500).

Definition latecomer : Doc := mkDoc (fresh_oid 500) spot.

Definition crowded_world : World :=
  mkWorld (Some (mkDatabase (crowd ++ [latecomer]) 501 [])) [].

(** A record at the North Pole, filed under longitude [-179]. *)
Definition polar : Doc :=
  mkDoc (fresh_oid 0)
    (mkStation "Polar Camp" None 90 (-179) None None None None None
       [Type2] (Some 11) None (Some true) [] None None).

Definition polar_world : World := mkWorld (Some (mkDatabase [polar] 1 [])) [].

(** Cosine of the central angle between two points given in degrees
    (spherical law of cosines); it is 1 exactly when the points coincide on
    the sphere. *)
Definition cos_central_angle (lat1 lng1 lat2 lng2 : R) : R :=
  sin (lat1 * PI / 180) * sin (lat2 * PI / 180) +
  cos (lat1 * PI / 180) * cos (lat2 * PI / 180) * cos ((lng2 - lng1) * PI / 180).

(** ** [GET /schema] (main.py, lines 64-71)

    The field names of [Station], in the order of the class body. *)
Definition Station_model_fields : list string :=
  [ "name"; "network"; "latitude"; "longitude"; "address"; "city"; "state";
    "country"; "postal_code"; "connectors"; "power_kw"; "price"; "available";
    "amenities"; "phone"; "hours" ].

Definition get_schema : list string := Station_model_fields.

(** The field names a filter refers to: its own keys and, under ["$or"],
    those of the alternatives. *)
Definition value_keys (kv : string * Value) : list string :=
  match snd kv with
  | Cond _ => [fst kv]
  | Alternatives alts => List.concat (map (map fst) alts)
  end.

Definition filter_keys (f : Dict) : list string := List.concat (map value_keys f).

(** How many of the four parameters of [list_stations] are in effect. *)
Definition present {A} (o : option A) : nat :=
  match o with
  | Some _ => 1
  | None => 0
  end.

(** All four constraints together. *)
Definition all_ok (connector : option string) (min_power : option R)
    (c q : option string) (d : Doc) : bool :=
  connector_ok connector d && power_ok min_power d && city_ok c d && q_ok q d.

(** Every stored station meets the constraints of the schema. *)
Definition all_valid (w : World) : Prop :=
  Forall (fun d => Station_valid (fields d)) (stored w).

(** An empty store that answers twice and then fails once. *)
Definition flaky_world : World :=
  mkWorld (Some (mkDatabase [] 0 [false; false; true])) [].

(** ** [GET /test] (main.py, lines 35-61)

    The diagnostic reads the handle [db] and the environment and talks to
    the store through [list_collection_names] only.  [Handle] is what it sees
    of a handle that is there: the name, when the handle has one, and what
    listing the collections gives, the names or the text of the exception.
    A string is taken as its sequence of characters. *)
Inductive Listing : Type :=
| Names (l : list string)
| Fails (text : string).

Record Handle : Type := mkHandle {
  handle_name : option string;
  list_collection_names : Listing
}.

Record TestReport : Type := mkTestReport {
  backend : string;
  database : string;
  database_url : option string;
  database_name : option string;
  connection_status : string;
  collections : list string
}.

Definition initial_report : TestReport :=
  mkTestReport "✅ Running" "❌ Not Available" None None "Not Connected" [].

Definition set_database (v : string) (r : TestReport) : TestReport :=
  mkTestReport (backend r) v (database_url r) (database_name r)
    (connection_status r) (collections r).

Definition set_database_url (v : string) (r : TestReport) : TestReport :=
  mkTestReport (backend r) (database r) (Some v) (database_name r)
    (connection_status r) (collections r).

Definition set_database_name (v : string) (r : TestReport) : TestReport :=
  mkTestReport (backend r) (database r) (database_url r) (Some v)
    (connection_status r) (collections r).

Definition set_connection_status (v : string) (r : TestReport) : TestReport :=
  mkTestReport (backend r) (database r) (database_url r) (database_name r)
    v (collections r).

Definition set_collections (v : list string) (r : TestReport) : TestReport :=
  mkTestReport (backend r) (database r) (database_url r) (database_name r)
    (connection_status r) v.

Definition test_database (getenv : string -> option string)
    (handle : option Handle) : TestReport :=
  match handle with
  | Some h =>
      let r1 := set_database "✅ Available" initial_report in
      let r2 :=
        set_database_url
          (match truthy (getenv "DATABASE_URL") with
           | Some _ => "✅ Set"
           | None => "❌ Not Set"
           end) r1 in
      let r3 :=
        set_database_name
          (match handle_name h with
           | Some n => n
           | None => "Unknown"
           end) r2 in
      match list_collection_names h with
      | Names l =>
          set_connection_status "Connected"
            (set_database "✅ Connected & Working"
               (set_collections (firstn 10 l) r3))
      | Fails text =>
          set_database ("⚠️ Connected but Error: " ++ substring 0 80 text) r3
      end
  | None => set_database "⚠️ Available but not initialized" initial_report
  end.

(** The identifiers of the stored records are ones the store handed out,
    and its counter has not run past what 24 hexadecimal digits hold. *)
Definition ids_issued (w : World) : Prop :=
  match db w with
  | Some d =>
      (issued d < 16 ^ 24)%N /\
      Forall (fun x => exists k, (k < issued d)%N /\ _id x = fresh_oid k) (station d)
  | None => True
  end.

(** The values of one hexadecimal digit. *)
Definition sixteen : list N := map N.of_nat (seq 0 16).

(** ** The bounding box as binary64 computes it

    The arithmetic of [stations_near] with its rounding: each operation
    returns [rnd] of the exact result, where [rnd] is the rounding of
    binary64, of which only [rounding] is assumed; [hundredth_r] and [pi_r]
    are the doubles that [0.01] and [math.pi] denote, and [cos_f] stands for
    [math.cos].  On requests within the declared ranges nothing overflows. *)
Definition rounding (rnd : R -> R) : Prop :=
  (forall x y, x <= y -> rnd x <= rnd y) /\ rnd 0 = 0 /\ rnd 1 = 1.

Definition hundredth_r : R := 5764607523034235 / 576460752303423488.

Definition pi_r : R := 884279719003555 / 281474976710656.

Definition truediv_r (rnd : R -> R) (x y : R) : Outcome R :=
  if Req_dec_T y 0 then Raise ZeroDivisionError else Return (rnd (x / y)).

Definition lat_delta_r (rnd : R -> R) (radius_km : R) : Outcome R :=
  truediv_r rnd radius_km 111.0.

Definition lng_divisor_r (rnd cos_f : R -> R) (lat : R) : R :=
  rnd (111.0 * pymax hundredth_r (Rabs (cos_f (rnd (rnd (lat * pi_r) / 180))))).

Definition lng_delta_r (rnd cos_f : R -> R) (lat radius_km : R) : Outcome R :=
  truediv_r rnd radius_km (lng_divisor_r rnd cos_f lat).

Definition box_filter_r (rnd : R -> R) (lat lng dlat dlng : R) : Dict :=
  [ ("latitude",
     Cond (Compare (Some (rnd (lat - dlat))) (Some (rnd (lat + dlat)))));
    ("longitude",
     Cond (Compare (Some (rnd (lng - dlng))) (Some (rnd (lng + dlng))))) ].

Definition in_box_r (rnd : R -> R) (lat lng dlat dlng : R) (d : Doc) : bool :=
  (Rleb (rnd (lat - dlat)) (latitude (fields d)) &&
   Rleb (latitude (fields d)) (rnd (lat + dlat))) &&
  (Rleb (rnd (lng - dlng)) (longitude (fields d)) &&
   Rleb (longitude (fields d)) (rnd (lng + dlng))).

Definition stations_near_r (rnd cos_f : R -> R) (lat lng radius_km : R)
    : M (list StationOut) :=
  require_db ;;;
  dlat <- lift (lat_delta_r rnd radius_km) ;;
  dlng <- lift (lng_delta_r rnd cos_f lat radius_km) ;;
  let filter_dict := box_filter_r rnd lat lng dlat dlng in
  docs <- find filter_dict 500 ;;
  mapM (fun d => _to_station_out (Some d)) docs.

(** * Properties *)

(** ** Arithmetic of the bounding box *)

Lemma Rleb_true (x y : R) : x <= y -> Rleb x y = true.
Proof. intros H. unfold Rleb. destruct (Rle_dec x y); [reflexivity | contradiction]. Qed.

Lemma Rleb_false (x y : R) : y < x -> Rleb x y = false.
Proof. intros H. unfold Rleb. destruct (Rle_dec x y); [lra | reflexivity]. Qed.

Lemma Rleb_spec (x y : R) : Rleb x y = true <-> x <= y.
Proof.
  unfold Rleb. destruct (Rle_dec x y); split; intros; try reflexivity;
    try assumption; try discriminate; contradiction.
Qed.

Lemma Rltb_true (x y : R) : x < y -> Rltb x y = true.
Proof. intros H. unfold Rltb. destruct (Rlt_dec x y); [reflexivity | contradiction]. Qed.

Lemma pymax_floor (a b : R) : a <= pymax a b.
Proof. unfold pymax. destruct (Rlt_dec a b); lra. Qed.

Lemma pymax_cases (a b : R) : pymax a b = a \/ pymax a b = b.
Proof. unfold pymax. destruct (Rlt_dec a b); auto. Qed.

Lemma truediv_nonzero (x y : R) : y <> 0 -> truediv x y = Return (x / y).
Proof. intros H. unfold truediv. destruct (Req_dec_T y 0); [contradiction | reflexivity]. Qed.

Lemma lng_divisor_floor (lat : R) : 1.11 <= lng_divisor lat.
Proof.
  unfold lng_divisor.
  pose proof (pymax_floor 0.01 (Rabs (cos (lat * PI / 180)))). lra.
Qed.

Lemma lng_divisor_ceiling (lat : R) : lng_divisor lat <= 111.
Proof.
  unfold lng_divisor.
  assert (H : Rabs (cos (lat * PI / 180)) <= 1).
  { apply Rabs_le. pose proof (COS_bound (lat * PI / 180)). lra. }
  destruct (pymax_cases 0.01 (Rabs (cos (lat * PI / 180)))) as [E | E];
    rewrite E; lra.
Qed.

Lemma lng_divisor_pole : lng_divisor 90 = 1.11 /\ lng_divisor (-90) = 1.11.
Proof.
  unfold lng_divisor.
  replace (90 * PI / 180) with (PI / 2) by lra.
  replace (-90 * PI / 180) with (- (PI / 2)) by lra.
  rewrite cos_neg, cos_PI2, Rabs_R0.
  unfold pymax. destruct (Rlt_dec 0.01 0); split; lra.
Qed.

(** ** The divisor in binary64

    Rounding a positive mantissa whose value is at least [2^-1074] never
    gives zero; the product of 111 and a double above 0.01 is such a
    value. *)

Local Open Scope Z_scope.

Lemma digits2_bounds p :
  2 ^ (Zpos (digits2_pos p) - 1) <= Zpos p < 2 ^ Zpos (digits2_pos p).
Proof.
  induction p as [p IH | p IH |]; cbn [digits2_pos].
  - rewrite Pos2Z.inj_succ.
    replace (Z.succ (Zpos (digits2_pos p)) - 1) with (Z.succ (Zpos (digits2_pos p) - 1)) by lia.
    rewrite !Z.pow_succ_r by lia. lia.
  - rewrite Pos2Z.inj_succ.
    replace (Z.succ (Zpos (digits2_pos p)) - 1) with (Z.succ (Zpos (digits2_pos p) - 1)) by lia.
    rewrite !Z.pow_succ_r by lia. lia.
  - cbn. lia.
Qed.

Lemma shr_1_lower r k :
  0 <= k -> 2 ^ (1 + k) <= shr_m r -> 2 ^ k <= shr_m (shr_1 r).
Proof.
  intros Hk H. replace (1 + k) with (Z.succ k) in H by lia.
  rewrite Z.pow_succ_r in H by lia.
  pose proof (Z.pow_pos_nonneg 2 k ltac:(lia) Hk) as P.
  destruct r as [m b s]. cbn [shr_m] in H.
  destruct m as [|p|p]; [lia | | lia].
  destruct p as [p|p|]; cbn; lia.
Qed.

Lemma iter_shr_lower p : forall r k,
  0 <= k -> 2 ^ (Zpos p + k) <= shr_m r -> 2 ^ k <= shr_m (iter_pos shr_1 p r).
Proof.
  induction p as [p IH | p IH |]; intros r k Hk H; cbn [iter_pos].
  - apply IH; [exact Hk|]. apply IH; [lia|]. apply shr_1_lower; [lia|].
    replace (1 + (Zpos p + (Zpos p + k))) with (Zpos p~1 + k) by lia. exact H.
  - apply IH; [exact Hk|]. apply IH; [lia|].
    replace (Zpos p + (Zpos p + k)) with (Zpos p~0 + k) by lia. exact H.
  - apply shr_1_lower; assumption.
Qed.

Lemma Zdigits2_lower m j : 0 <= j -> 2 ^ j <= m -> j < Zdigits2 m.
Proof.
  intros Hj H. pose proof (Z.pow_pos_nonneg 2 j ltac:(lia) Hj) as P.
  destruct m as [|p|p]; [lia | | lia]. cbn [Zdigits2].
  pose proof (digits2_bounds p) as [_ U].
  apply (Z.pow_lt_mono_r_iff 2); lia.
Qed.

Lemma shr_record_of_loc_m m l : shr_m (shr_record_of_loc m l) = m.
Proof. destruct l as [|[]]; reflexivity. Qed.

Lemma shr_fexp_keeps m e l :
  0 < m -> -1074 < Zdigits2 m + e ->
  0 < shr_m (fst (shr_fexp prec emax m e l)) /\
  -1074 < Zdigits2 (shr_m (fst (shr_fexp prec emax m e l))) + snd (shr_fexp prec emax m e l).
Proof.
  intros Hm Hd. unfold shr_fexp, shr, fexp, SpecFloat.emin, prec, emax.
  destruct (Z.max (Zdigits2 m + e - 53) (3 - 1024 - 53) - e) as [|p|p] eqn:N;
    cbn [fst snd]; rewrite ?shr_record_of_loc_m; try (split; assumption).
  destruct m as [|q|q]; [lia | | lia]. cbn [Zdigits2] in *.
  pose proof (digits2_bounds q) as [L _].
  assert (K : 0 <= Zpos (digits2_pos q) - 1 - Zpos p) by lia.
  pose proof (iter_shr_lower p (shr_record_of_loc (Zpos q) l) _ K) as I.
  rewrite shr_record_of_loc_m in I.
  replace (Zpos p + (Zpos (digits2_pos q) - 1 - Zpos p)) with (Zpos (digits2_pos q) - 1) in I by lia.
  specialize (I L).
  pose proof (Z.pow_pos_nonneg 2 _ ltac:(lia) K) as P.
  split; [lia|].
  pose proof (Zdigits2_lower _ _ K I). lia.
Qed.

Lemma round_nearest_even_ge m l : m <= round_nearest_even m l.
Proof. destruct l as [|[]]; cbn; try lia. destruct (Z.even m); lia. Qed.

Lemma Zdigits2_mono a b : 0 < a -> a <= b -> Zdigits2 a <= Zdigits2 b.
Proof.
  intros Ha Hab. destruct a as [|p|p]; [lia | | lia].
  pose proof (digits2_bounds p) as [L _]. cbn [Zdigits2].
  assert (0 <= Zpos (digits2_pos p) - 1) by lia.
  pose proof (Zdigits2_lower b (Zpos (digits2_pos p) - 1) H ltac:(lia)). lia.
Qed.

Lemma binary_round_aux_nonzero s m e l :
  0 < m -> -1074 < Zdigits2 m + e ->
  nonzero (binary_round_aux prec emax s m e l).
Proof.
  intros Hm Hd. unfold binary_round_aux.
  pose proof (shr_fexp_keeps m e l Hm Hd) as [P1 D1].
  destruct (shr_fexp prec emax m e l) as [mrs' e']. cbn [fst snd] in P1, D1.
  pose proof (round_nearest_even_ge (shr_m mrs') (loc_of_shr_record mrs')) as G.
  set (m2 := round_nearest_even (shr_m mrs') (loc_of_shr_record mrs')) in *.
  assert (P2 : 0 < m2) by lia.
  assert (D2 : -1074 < Zdigits2 m2 + e').
  { pose proof (Zdigits2_mono _ _ P1 G). lia. }
  pose proof (shr_fexp_keeps m2 e' loc_Exact P2 D2) as [P3 _].
  destruct (shr_fexp prec emax m2 e' loc_Exact) as [mrs'' e'']. cbn [fst] in P3.
  destruct (shr_m mrs'') as [|q|q]; [lia | | lia].
  destruct (e'' <=? emax - prec); constructor.
Qed.

Lemma SFeqb_nonzero x : nonzero x -> SFeqb x (S754_zero false) = false.
Proof. intros H. destruct H as [s m e | s]; destruct s; reflexivity. Qed.

Lemma above_hundredth y :
  SFltb (Prim2SF hundredth) y = true ->
  y = S754_infinity false \/ exists m e, y = S754_finite false m e /\ -59 <= e.
Proof.
  change (Prim2SF hundredth) with (S754_finite false 5764607523034235 (-59)).
  unfold SFltb, SFcompare.
  destruct y as [s | s | | s m e]; try discriminate.
  - destruct s; [discriminate | auto].
  - destruct s; [discriminate|]. intros H. right. exists m, e. split; [reflexivity|].
    destruct (Z.compare_spec (-59) e); first [lia | discriminate].
Qed.

Lemma times_111_nonzero (y : float) :
  PrimFloat.ltb hundredth y = true -> PrimFloat.eqb (111 * y)%float 0 = false.
Proof.
  intros H. rewrite ltb_spec in H. rewrite eqb_spec, mul_spec.
  change (Prim2SF 0) with (S754_zero false).
  change (Prim2SF 111) with (S754_finite false 7810930603720704 (-46)).
  apply SFeqb_nonzero.
  destruct (above_hundredth _ H) as [-> | [m [e [-> He]]]]; [constructor|].
  unfold SF64mul, SFmul. apply binary_round_aux_nonzero; [lia|].
  cbn [Zdigits2]. pose proof (Pos2Z.is_pos (digits2_pos (7810930603720704 * m))). lia.
Qed.

Lemma lng_divisor_f_nonzero cos_f lat :
  PrimFloat.eqb (lng_divisor_f cos_f lat) 0 = false.
Proof.
  unfold lng_divisor_f, pymax_f.
  destruct (PrimFloat.ltb hundredth (PrimFloat.abs (cos_f (lat * pi_f / 180)%float))) eqn:E.
  - apply times_111_nonzero. exact E.
  - reflexivity.
Qed.

Local Close Scope Z_scope.

(** C5.  The longitude delta [radius_km / (111.0 * max(0.01, |cos(lat in
    radians)|))] never divides by zero.  In the real-number model the floor
    keeps the divisor at or above [1.11], hence strictly positive, for every
    latitude (the poles [90] and [-90] included, where the divisor is
    exactly [1.11]), and the division returns for every radius.  In binary64
    the divisor is not zero either, whatever [math.cos] returns, and the
    division returns. *)
Theorem lng_delta_never_divides_by_zero :
  (forall lat radius_km : R,
      0 < lng_divisor lat /\
      lng_delta lat radius_km = Return (radius_km / lng_divisor lat) /\
      lng_delta 90 radius_km = Return (radius_km / 1.11) /\
      lng_delta (-90) radius_km = Return (radius_km / 1.11)) /\
  (forall (cos_f : float -> float) (lat radius_km : float),
      PrimFloat.eqb (lng_divisor_f cos_f lat) 0 = false /\
      lng_delta_f cos_f lat radius_km =
        Return (radius_km / lng_divisor_f cos_f lat)%float).
Proof.
  split.
  - intros lat radius_km.
    assert (P : forall l, lng_delta l radius_km = Return (radius_km / lng_divisor l)).
    { intros l. unfold lng_delta. apply truediv_nonzero.
      pose proof (lng_divisor_floor l). lra. }
    destruct lng_divisor_pole as [N S].
    split; [|split; [|split]].
    + pose proof (lng_divisor_floor lat). lra.
    + apply P.
    + rewrite P, N. reflexivity.
    + rewrite P, S. reflexivity.
  - intros cos_f lat radius_km.
    pose proof (lng_divisor_f_nonzero cos_f lat) as Z.
    split; [exact Z|].
    unfold lng_delta_f, truediv_f. rewrite Z. reflexivity.
Qed.

(** ** The filter builder *)

Lemma build_filter_entries connector min_power c q :
  build_filter connector min_power c q =
  (entry (truthy connector) "connectors" (fun x => Cond (Equals x)) ++
   entry min_power "power_kw" (fun p => Cond (Compare (Some p) None)) ++
   entry (truthy c) "city" (fun x => Cond (Regex x "i")) ++
   entry (truthy q) "$or"
     (fun x => Alternatives [[("name", Regex x "i")]; [("address", Regex x "i")]]))%list.
Proof.
  unfold build_filter, with_q, with_city, with_min_power, with_connector.
  destruct (truthy connector), min_power, (truthy c), (truthy q); reflexivity.
Qed.

Lemma matches_app f g d : matches (f ++ g)%list d = matches f d && matches g d.
Proof. unfold matches. apply forallb_app. Qed.

Lemma matches_connector connector d :
  matches (entry (truthy connector) "connectors" (fun x => Cond (Equals x))) d =
  connector_ok connector d.
Proof.
  unfold connector_ok. destruct (truthy connector); [|reflexivity].
  cbn. apply andb_true_r.
Qed.

Lemma matches_power min_power d :
  matches (entry min_power "power_kw" (fun p => Cond (Compare (Some p) None))) d =
  power_ok min_power d.
Proof.
  unfold power_ok, power_at_least. destruct min_power; [|reflexivity].
  cbn. destruct (power_kw (fields d)); cbn; rewrite ?andb_true_r; reflexivity.
Qed.

Lemma matches_city c d :
  matches (entry (truthy c) "city" (fun x => Cond (Regex x "i"))) d = city_ok c d.
Proof.
  unfold city_ok, searched. destruct (truthy c); [|reflexivity].
  cbn. destruct (city (fields d)); cbn; rewrite ?andb_true_r; reflexivity.
Qed.

Lemma matches_q q d :
  matches (entry (truthy q) "$or"
    (fun x => Alternatives [[("name", Regex x "i")]; [("address", Regex x "i")]])) d =
  q_ok q d.
Proof.
  unfold q_ok, searched. destruct (truthy q); [|reflexivity].
  cbn. destruct (address (fields d)); cbn; rewrite ?andb_true_r, ?orb_false_r; reflexivity.
Qed.

(** The filter of [list_stations] holds of a document exactly when the four
    constraints do. *)
Lemma matches_build_filter connector min_power c q d :
  matches (build_filter connector min_power c q) d =
  connector_ok connector d && power_ok min_power d && city_ok c d && q_ok q d.
Proof.
  rewrite build_filter_entries, !matches_app, matches_connector, matches_power,
    matches_city, matches_q.
  rewrite !andb_assoc. reflexivity.
Qed.

(** ** Store calls and handlers *)

Lemma next_outage_station d : station (snd (next_outage d)) = station d.
Proof. unfold next_outage. destruct (outages d); reflexivity. Qed.

Lemma next_outage_issued d : issued (snd (next_outage d)) = issued d.
Proof. unfold next_outage. destruct (outages d); reflexivity. Qed.

Lemma next_outage_calm d : outages d = [] -> next_outage d = (false, d).
Proof. unfold next_outage. intros ->. reflexivity. Qed.

Lemma store_call_some {A} c (op : Database -> A * Database) w d :
  db w = Some d ->
  store_call c op w =
  if fst (next_outage d)
  then (Raise PyMongoError, mkWorld (Some (snd (next_outage d))) (calls w ++ [c]))
  else (Return (fst (op (snd (next_outage d)))),
        mkWorld (Some (snd (op (snd (next_outage d))))) (calls w ++ [c])).
Proof.
  intros E. unfold store_call. rewrite E.
  destruct (next_outage d) as [down d1]. cbn.
  destruct down; [reflexivity|]. destruct (op d1); reflexivity.
Qed.

Lemma mapM_pure {A B} (f : A -> M B) (g : A -> B) l w :
  (forall a v, f a v = (Return (g a), v)) ->
  mapM f l w = (Return (map g l), w).
Proof.
  intros H. induction l as [|a r IH]; [reflexivity|].
  cbn [mapM map]. unfold bind. rewrite H, IH. reflexivity.
Qed.

Lemma mapM_to_out docs w :
  mapM (fun d => _to_station_out (Some d)) docs w = (Return (map to_out docs), w).
Proof. apply mapM_pure. reflexivity. Qed.

Lemma require_db_some w d : db w = Some d -> require_db w = (Return tt, w).
Proof. intros E. unfold require_db. rewrite E. reflexivity. Qed.

Lemma require_db_none w : db w = None -> require_db w = (Raise unconfigured, w).
Proof. intros E. unfold require_db. rewrite E. reflexivity. Qed.

(** What [list_stations] does on a configured store: one [find], then the
    first [limit] matching documents mapped to the output shape. *)
Lemma list_stations_configured connector min_power c q limit w d :
  db w = Some d ->
  list_stations connector min_power c q limit w =
  if fst (next_outage d)
  then (Raise PyMongoError, mkWorld (Some (snd (next_outage d))) (calls w ++ [CallFind]))
  else (Return (map to_out
                  (cursor_limit limit
                     (filter (matches (build_filter connector min_power c q)) (station d)))),
        mkWorld (Some (snd (next_outage d))) (calls w ++ [CallFind])).
Proof.
  intros E. unfold list_stations, bind.
  rewrite (require_db_some w d E). unfold find.
  rewrite (store_call_some _ _ w d E). cbn.
  destruct (fst (next_outage d)); [reflexivity|].
  rewrite mapM_to_out, next_outage_station. reflexivity.
Qed.

Lemma list_stations_unconfigured connector min_power c q limit w :
  db w = None ->
  list_stations connector min_power c q limit w = (Raise unconfigured, w).
Proof.
  intros E. unfold list_stations, bind. rewrite (require_db_none w E). reflexivity.
Qed.

Lemma list_stations_returns connector min_power c q limit w outs w' :
  list_stations connector min_power c q limit w = (Return outs, w') ->
  exists d, db w = Some d /\
    outs = map to_out
             (cursor_limit limit
                (filter (matches (build_filter connector min_power c q)) (station d))).
Proof.
  intros H. destruct (db w) as [d|] eqn:E.
  - exists d. split; [reflexivity|].
    rewrite (list_stations_configured _ _ _ _ _ w d E) in H.
    destruct (fst (next_outage d)); [discriminate|]. congruence.
  - rewrite (list_stations_unconfigured _ _ _ _ _ w E) in H. discriminate.
Qed.

Lemma cursor_limit_incl {A} n (l : list A) x : In x (cursor_limit n l) -> In x l.
Proof.
  unfold cursor_limit. destruct (n =? 0)%Z; [auto|].
  intros H. rewrite <- (firstn_skipn (Z.abs_nat n) l). apply in_or_app. auto.
Qed.

Lemma cursor_limit_length {A} n (l : list A) :
  (1 <= n)%Z -> (Z.of_nat (List.length (cursor_limit n l)) <= n)%Z.
Proof.
  intros H. unfold cursor_limit.
  destruct (Z.eqb_spec n 0); [lia|].
  pose proof (firstn_le_length (Z.abs_nat n) l). lia.
Qed.

(** ** Properties of [list_stations] *)

Lemma getitem_power_present connector p c q :
  getitem "power_kw" (build_filter connector (Some p) c q) =
  Some (Cond (Compare (Some p) None)).
Proof.
  rewrite build_filter_entries.
  destruct (truthy connector), (truthy c), (truthy q); reflexivity.
Qed.

Lemma getitem_power_absent connector c q :
  getitem "power_kw" (build_filter connector None c q) = None.
Proof.
  rewrite build_filter_entries.
  destruct (truthy connector), (truthy c), (truthy q); reflexivity.
Qed.

Lemma power_at_least_spec p d :
  power_at_least p d = true <-> exists x, power_kw (fields d) = Some x /\ p <= x.
Proof.
  unfold power_at_least. destruct (power_kw (fields d)) as [x|].
  - rewrite Rleb_spec. split.
    + intros H. exists x. auto.
    + intros [y [E H]]. congruence.
  - split; [discriminate|]. intros [y [E _]]. discriminate.
Qed.

(** C1.  A supplied [min_power], zero included, adds the inclusive bound
    [power_kw >= min_power] to the filter: the filter holds of a document
    exactly when the bound and the filter without it do, and every station
    that [list_stations] returns is rated at or above it.  An absent
    [min_power] adds no [power_kw] entry, and the filter then does not look
    at the power of a document. *)
Theorem min_power_lower_bound :
  forall (connector c q : option string) (limit : Z),
    (forall p d,
        matches (build_filter connector (Some p) c q) d =
        power_at_least p d && matches (build_filter connector None c q) d) /\
    (forall p,
        getitem "power_kw" (build_filter connector (Some p) c q) =
        Some (Cond (Compare (Some p) None))) /\
    build_filter connector (Some 0) c q <> build_filter connector None c q /\
    getitem "power_kw" (build_filter connector None c q) = None /\
    (forall x d,
        matches (build_filter connector None c q) (with_power x d) =
        matches (build_filter connector None c q) d) /\
    (forall p w outs w',
        list_stations connector (Some p) c q limit w = (Return outs, w') ->
        Forall (fun o => exists x, power_kw (station_of o) = Some x /\ p <= x) outs).
Proof.
  intros connector c q limit. repeat split.
  - intros p d. rewrite !matches_build_filter. cbn [power_ok].
    destruct (connector_ok connector d), (power_at_least p d),
      (city_ok c d), (q_ok q d); reflexivity.
  - intros p. apply getitem_power_present.
  - intros E.
    pose proof (getitem_power_present connector 0 c q) as P.
    rewrite E, getitem_power_absent in P. discriminate.
  - apply getitem_power_absent.
  - intros x d. rewrite !matches_build_filter. reflexivity.
  - intros p w outs w' H.
    destruct (list_stations_returns _ _ _ _ _ _ _ _ H) as [d [_ ->]].
    apply Forall_forall. intros o Hin.
    apply in_map_iff in Hin. destruct Hin as [doc [<- Hin]].
    apply cursor_limit_incl in Hin. apply filter_In in Hin.
    destruct Hin as [_ Hm]. rewrite matches_build_filter in Hm.
    cbn [power_ok] in Hm.
    apply andb_prop in Hm. destruct Hm as [Hm _].
    apply andb_prop in Hm. destruct Hm as [Hm _].
    apply andb_prop in Hm. destruct Hm as [_ Hm].
    apply power_at_least_spec in Hm. exact Hm.
Qed.

(** C9.  An empty [connector], [city] or [q] is an absent one: the filter
    built and the outcome of [list_stations] are the same as without the
    parameter.  Not so for [min_power], where zero still adds its entry. *)
Theorem empty_string_is_absent :
  forall (connector : option string) (min_power : option R)
         (c q : option string) (limit : Z) (w : World),
    build_filter (Some "") min_power c q = build_filter None min_power c q /\
    build_filter connector min_power (Some "") q =
      build_filter connector min_power None q /\
    build_filter connector min_power c (Some "") =
      build_filter connector min_power c None /\
    list_stations (Some "") min_power c q limit w =
      list_stations None min_power c q limit w /\
    list_stations connector min_power (Some "") q limit w =
      list_stations connector min_power None q limit w /\
    list_stations connector min_power c (Some "") limit w =
      list_stations connector min_power c None limit w /\
    build_filter connector (Some 0) c q <> build_filter connector None c q.
Proof.
  intros connector min_power c q limit w.
  repeat split; try reflexivity.
  intros E.
  pose proof (getitem_power_present connector 0 c q) as P.
  rewrite E, getitem_power_absent in P. discriminate.
Qed.

Lemma GET_stations_returns connector min_power c q limit w outs w' :
  GET_stations connector min_power c q limit w = (Return outs, w') ->
  exists n, Query_limit limit = Return n /\
            list_stations connector min_power c q n w = (Return outs, w').
Proof.
  unfold GET_stations, bind, lift. intros H.
  destruct (Query_limit limit) as [n|e]; [|discriminate].
  exists n. auto.
Qed.

Lemma Query_limit_range limit n :
  Query_limit limit = Return n -> (1 <= n <= 1000)%Z.
Proof.
  unfold Query_limit. destruct limit as [m|].
  - destruct ((1 <=? m) && (m <=? 1000))%Z eqn:E; [|discriminate].
    intros [= <-]. apply andb_prop in E. lia.
  - intros [= <-]. lia.
Qed.

(** C8.  [list_stations] never returns more records than its limit.  The
    limit of a request is 200 when absent, the supplied value when that lies
    between 1 and 1000, and the request is refused otherwise; so one record
    at most comes back for a limit of 1. *)
Theorem limit_bounds_result :
  forall (connector : option string) (min_power : option R)
         (c q : option string),
    Query_limit None = Return 200%Z /\
    (forall n, (1000 < n)%Z ->
       Query_limit (Some n) = Raise (RequestValidationError "limit")) /\
    (forall limit w outs w',
       (1 <= limit)%Z ->
       list_stations connector min_power c q limit w = (Return outs, w') ->
       (Z.of_nat (List.length outs) <= limit)%Z) /\
    (forall limit w outs w',
       GET_stations connector min_power c q limit w = (Return outs, w') ->
       exists n, Query_limit limit = Return n /\
                 (1 <= n <= 1000)%Z /\
                 (forall m, limit = Some m -> n = m) /\
                 (Z.of_nat (List.length outs) <= n)%Z).
Proof.
  intros connector min_power c q.
  assert (L : forall limit w outs w',
             (1 <= limit)%Z ->
             list_stations connector min_power c q limit w = (Return outs, w') ->
             (Z.of_nat (List.length outs) <= limit)%Z).
  { intros limit w outs w' Hl H.
    destruct (list_stations_returns _ _ _ _ _ _ _ _ H) as [d [_ ->]].
    rewrite length_map. apply cursor_limit_length. exact Hl. }
  split; [reflexivity|]. split; [|split; [exact L|]].
  - intros n Hn. unfold Query_limit.
    replace (n <=? 1000)%Z with false by (symmetry; apply Z.leb_gt; exact Hn).
    rewrite andb_false_r. reflexivity.
  - intros limit w outs w' H.
    destruct (GET_stations_returns _ _ _ _ _ _ _ _ H) as [n [Q H']].
    pose proof (Query_limit_range _ _ Q) as Hr.
    exists n. repeat split; try lia; try assumption.
    + intros m ->. unfold Query_limit in Q.
      destruct ((1 <=? m) && (m <=? 1000))%Z; [congruence | discriminate].
    + apply (L n w outs w'); [lia | exact H'].
Qed.

(** ** Properties of [get_station] *)

Lemma get_station_configured station_id w d :
  db w = Some d ->
  get_station station_id w =
  if well_formed_id station_id
  then
    if fst (next_outage d)
    then (Raise (HTTPException 400 "Invalid station id"),
          mkWorld (Some (snd (next_outage d))) (calls w ++ [CallFindOne]))
    else
      match List.find (fun x => _id x =? string_map lower station_id) (station d) with
      | Some doc => (Return (to_out doc),
                     mkWorld (Some (snd (next_outage d))) (calls w ++ [CallFindOne]))
      | None => (Raise (HTTPException 404 "Station not found"),
                 mkWorld (Some (snd (next_outage d))) (calls w ++ [CallFindOne]))
      end
  else (Raise (HTTPException 400 "Invalid station id"), w).
Proof.
  intros E. unfold get_station, bind, try_except, lift, ObjectId.
  rewrite (require_db_some w d E).
  destruct (well_formed_id station_id); [|reflexivity].
  unfold find_one. rewrite (store_call_some _ _ w d E). cbn [fst snd].
  destruct (fst (next_outage d)); [reflexivity|].
  rewrite next_outage_station.
  destruct (List.find _ (station d)); reflexivity.
Qed.

(** On a store that answers, the three outcomes are as the specification
    says: 400 for a malformed identifier, 404 for a well-formed one with no
    record, the record otherwise. *)
Lemma get_station_status station_id w d :
  db w = Some d -> fst (next_outage d) = false ->
  (well_formed_id station_id = false <->
   response_status (fst (get_station station_id w)) = 400%Z) /\
  (well_formed_id station_id = true /\
   List.find (fun x => _id x =? string_map lower station_id) (station d) = None <->
   response_status (fst (get_station station_id w)) = 404%Z).
Proof.
  intros E Hup. rewrite (get_station_configured station_id w d E), Hup.
  destruct (well_formed_id station_id);
    destruct (List.find _ (station d)); cbn; intuition (discriminate || auto).
Qed.

(** C3.  A store failure during the lookup of a well-formed identifier is
    caught by the handler's [except Exception] and reported as 400 "Invalid
    station id": here the identifier is well formed, the store is down for
    its next call, and the response is the 400 of a malformed identifier
    rather than a 500. *)
Theorem store_failure_reported_as_invalid_id :
  well_formed_id "507f1f77bcf86cd799439011" = true /\
  find_one "507f1f77bcf86cd799439011" outage_world =
    (Raise PyMongoError, mkWorld (Some (mkDatabase demo_docs 3 [])) [CallFindOne]) /\
  get_station "507f1f77bcf86cd799439011" outage_world =
    (Raise (HTTPException 400 "Invalid station id"),
     mkWorld (Some (mkDatabase demo_docs 3 [])) [CallFindOne]) /\
  response_status (fst (get_station "507f1f77bcf86cd799439011" outage_world)) = 400%Z.
Proof.
  assert (G : get_station "507f1f77bcf86cd799439011" outage_world =
              (Raise (HTTPException 400 "Invalid station id"),
               mkWorld (Some (mkDatabase demo_docs 3 [])) [CallFindOne])).
  { rewrite (get_station_configured _ outage_world _ eq_refl). reflexivity. }
  split; [reflexivity|]. split; [reflexivity|]. split; [exact G|].
  rewrite G. reflexivity.
Qed.

(** ** The search parameters are patterns *)

Lemma filter_all {A} (p : A -> bool) l :
  (forall x, In x l -> p x = true) -> filter p l = l.
Proof.
  induction l as [|a r IH]; intros H; [reflexivity|].
  cbn [filter]. rewrite (H a (or_introl eq_refl)).
  f_equal. apply IH. intros x Hx. apply H. right. exact Hx.
Qed.

Lemma match_here_literal p s :
  string_forall (fun a => negb (Ascii.eqb a ".")) p = true ->
  match_here true p s = prefix_ci p s.
Proof.
  revert s. induction p as [|a p IH]; intros s H; [destruct s; reflexivity|].
  cbn [string_forall] in H. apply andb_prop in H. destruct H as [Ha Hp].
  destruct s as [|c s]; [reflexivity|].
  cbn [match_here prefix_ci]. rewrite (IH s Hp).
  unfold item_matches. destruct (Ascii.eqb a "."); [discriminate|reflexivity].
Qed.

(** On a pattern without a wildcard the search is the substring test. *)
Lemma wildcard_search_literal p s :
  string_forall (fun a => negb (Ascii.eqb a ".")) p = true ->
  wildcard_search p "i" s = contains_ci p s.
Proof.
  intros H. unfold wildcard_search. cbn [has_flag Ascii.eqb orb].
  change (has_flag "i" "i") with true.
  induction s as [|c s IH]; cbn [search_from contains_ci];
    rewrite (match_here_literal p _ H); [reflexivity|].
  rewrite IH. reflexivity.
Qed.

Lemma wildcard_search_dot c s :
  c <> "010"%char -> wildcard_search "." "i" (String c s) = true.
Proof.
  intros H. unfold wildcard_search. change (has_flag "i" "i") with true.
  cbn [search_from match_here]. unfold item_matches.
  change (Ascii.eqb "." ".") with true. cbv iota.
  destruct (Ascii.eqb_spec c "010"); [contradiction|reflexivity].
Qed.

(** C2.  The filter hands [q] to the store as a regular expression, not as
    a substring: under any engine for which the pattern [.] finds a match in
    a subject that starts with a character other than a line feed, a
    request with [q = "."] on the seeded store returns the three demo
    stations, none of which has a full stop in its name or address. *)
Theorem q_is_searched_as_a_pattern :
  (forall c s, c <> "010"%char -> regex_search "." "i" (String c s) = true) ->
  getitem "$or" (build_filter None None None (Some ".")) =
    Some (Alternatives [[("name", Regex "." "i")]; [("address", Regex "." "i")]]) /\
  fst (list_stations None None None (Some ".") 200 seeded_world) =
    Return (map to_out demo_docs) /\
  Forall (fun d => q_contained "." d = false) demo_docs.
Proof.
  intros Hdot. split; [reflexivity|]. split.
  - rewrite (list_stations_configured _ _ _ _ _ seeded_world _ eq_refl).
    cbn [fst snd next_outage outages station].
    rewrite filter_all; [reflexivity|].
    intros d Hd. rewrite matches_build_filter.
    cbn [connector_ok power_ok city_ok truthy andb].
    unfold q_ok, searched. cbn [truthy].
    unfold demo_docs, demo in Hd. cbn [number_docs In] in Hd.
    destruct Hd as [<- | [<- | [<- | []]]]; cbn [fields name];
      rewrite Hdot; try reflexivity; intros E; discriminate E.
  - unfold demo_docs, demo. cbn [number_docs].
    repeat constructor.
Qed.

(** ** The unconfigured store *)

(** C4.  With no database handle, each of the five data-touching handlers
    answers with the 500 "Database not configured" error and leaves the
    world as it was: no store call is logged and the handle is still
    absent. *)
Theorem unconfigured_store_fails_every_endpoint :
  forall w : World,
    db w = None ->
    (forall connector min_power c q limit,
        list_stations connector min_power c q limit w = (Raise unconfigured, w)) /\
    (forall lat lng radius_km,
        stations_near lat lng radius_km w = (Raise unconfigured, w)) /\
    (forall station_id, get_station station_id w = (Raise unconfigured, w)) /\
    (forall station, create_station station w = (Raise unconfigured, w)) /\
    seed_demo_data w = (Raise unconfigured, w) /\
    status_of unconfigured = 500%Z /\
    detail_of unconfigured = "Database not configured".
Proof.
  intros w E.
  pose proof (require_db_none w E) as Q.
  split; [|split; [|split; [|split; [|split; [|split]]]]].
  - intros. apply list_stations_unconfigured. exact E.
  - intros. unfold stations_near, bind. rewrite Q. reflexivity.
  - intros. unfold get_station, bind. rewrite Q. reflexivity.
  - intros. unfold create_station, create_document. rewrite E. reflexivity.
  - unfold seed_demo_data, bind. rewrite Q. reflexivity.
  - reflexivity.
  - reflexivity.
Qed.

(** ** Seeding *)

Lemma count_documents_calm w d :
  db w = Some d -> outages d = [] ->
  count_documents [] w =
  (Return (Z.of_nat (List.length (station d))), mkWorld (Some d) (calls w ++ [CallCount])).
Proof.
  intros E C. unfold count_documents.
  rewrite (store_call_some _ _ w d E), (next_outage_calm d C). cbn [fst snd].
  rewrite filter_all; [reflexivity|]. reflexivity.
Qed.

Lemma create_document_calm s w d :
  db w = Some d -> outages d = [] ->
  create_document "station" s w =
  (Return (fresh_oid (issued d)),
   mkWorld
     (Some (mkDatabase (station d ++ [mkDoc (fresh_oid (issued d)) s])
              (N.succ (issued d)) []))
     (calls w ++ [CallInsert])).
Proof.
  intros E C. unfold create_document. rewrite E.
  rewrite (store_call_some _ _ w d E), (next_outage_calm d C). cbn. rewrite C.
  reflexivity.
Qed.

Lemma seed_loop_calm l : forall k w d,
  db w = Some d -> outages d = [] ->
  seed_loop l k w =
  (Return (k + Z.of_nat (List.length l))%Z,
   mkWorld
     (Some (mkDatabase (station d ++ number_docs (issued d) l)
              (issued d + N.of_nat (List.length l)) []))
     (calls w ++ repeat CallInsert (List.length l))).
Proof.
  induction l as [|s r IH]; intros k w d E C.
  - cbn. rewrite Z.add_0_r, N.add_0_r, !app_nil_r.
    destruct w as [o cs], d as [st n os]. cbn in *. subst. reflexivity.
  - cbn [seed_loop]. unfold bind. rewrite (create_document_calm s w d E C).
    erewrite IH by reflexivity. cbn [station issued calls].
    cbn [number_docs List.length repeat].
    rewrite <- !app_assoc. cbn [app].
    replace (k + 1 + Z.of_nat (List.length r))%Z
      with (k + Z.of_nat (S (List.length r)))%Z by lia.
    replace (N.succ (issued d) + N.of_nat (List.length r))%N
      with (issued d + N.of_nat (S (List.length r)))%N by lia.
    reflexivity.
Qed.

Lemma seed_on_stocked w d :
  db w = Some d -> outages d = [] -> station d <> [] ->
  seed_demo_data w =
  (Return (mkSeedReport 0 (Some "Stations already present")),
   mkWorld (Some d) (calls w ++ [CallCount])).
Proof.
  intros E C N. unfold seed_demo_data, bind.
  rewrite (require_db_some w d E), (count_documents_calm w d E C).
  destruct (station d) as [|x r]; [contradiction|]. reflexivity.
Qed.

Lemma seed_on_empty w d :
  db w = Some d -> outages d = [] -> station d = [] ->
  seed_demo_data w =
  (Return (mkSeedReport 3 None),
   mkWorld (Some (mkDatabase (number_docs (issued d) demo) (issued d + 3) []))
     (calls w ++ [CallCount; CallInsert; CallInsert; CallInsert])).
Proof.
  intros E C N. unfold seed_demo_data, bind.
  rewrite (require_db_some w d E), (count_documents_calm w d E C), N.
  cbn [List.length Z.of_nat Z.gtb Z.compare].
  erewrite seed_loop_calm; [|reflexivity|exact C]. rewrite N.
  cbn [calls app]. rewrite <- app_assoc. reflexivity.
Qed.

(** C7.  On a store that answers, [seed_demo_data] inserts nothing and
    reports zero when the collection holds a record, and otherwise inserts
    the three demo stations and reports three; a second call right after a
    first reports zero and leaves the collection as the first left it. *)
Theorem seed_is_idempotent :
  forall (w : World) (d : Database),
    db w = Some d -> outages d = [] ->
    (station d <> [] ->
       exists w1,
         seed_demo_data w =
           (Return (mkSeedReport 0 (Some "Stations already present")), w1) /\
         stored w1 = stored w) /\
    (station d = [] ->
       exists w1,
         seed_demo_data w = (Return (mkSeedReport 3 None), w1) /\
         map fields (stored w1) = demo) /\
    (exists r1 w1 w2,
        seed_demo_data w = (Return r1, w1) /\
        seed_demo_data w1 =
          (Return (mkSeedReport 0 (Some "Stations already present")), w2) /\
        stored w2 = stored w1 /\
        List.length (stored w2) = List.length (stored w1)).
Proof.
  intros w d E C.
  assert (S1 : station d <> [] ->
               seed_demo_data w =
               (Return (mkSeedReport 0 (Some "Stations already present")),
                mkWorld (Some d) (calls w ++ [CallCount])))
    by (apply seed_on_stocked; assumption).
  assert (S0 : station d = [] ->
               seed_demo_data w =
               (Return (mkSeedReport 3 None),
                mkWorld (Some (mkDatabase (number_docs (issued d) demo) (issued d + 3) []))
                  (calls w ++ [CallCount; CallInsert; CallInsert; CallInsert])))
    by (apply seed_on_empty; assumption).
  split; [|split].
  - intros N. eexists. split; [apply (S1 N)|].
    unfold stored. rewrite E. reflexivity.
  - intros N. eexists. split; [apply (S0 N)|]. reflexivity.
  - destruct (station d) as [|x r] eqn:N.
    + do 3 eexists. split; [apply S0; reflexivity|]. split.
      * apply seed_on_stocked; [reflexivity | reflexivity | discriminate].
      * split; reflexivity.
    + do 3 eexists. split; [apply S1; discriminate|]. split.
      * apply seed_on_stocked; [reflexivity | exact C |].
        rewrite N. discriminate.
      * split; reflexivity.
Qed.

(** ** The bounding-box search *)

Lemma matches_box lat lng dlat dlng d :
  matches (box_filter lat lng dlat dlng) d = in_box lat lng dlat dlng d.
Proof.
  unfold box_filter, in_box, matches. cbn. rewrite andb_true_r. reflexivity.
Qed.

Lemma in_box_spec lat lng dlat dlng d :
  in_box lat lng dlat dlng d = true <->
  lat - dlat <= latitude (fields d) <= lat + dlat /\
  lng - dlng <= longitude (fields d) <= lng + dlng.
Proof.
  unfold in_box. rewrite !andb_true_iff, !Rleb_spec. tauto.
Qed.

Lemma lat_delta_value radius_km : lat_delta radius_km = Return (radius_km / 111.0).
Proof. unfold lat_delta. apply truediv_nonzero. lra. Qed.

Lemma lng_delta_value lat radius_km :
  lng_delta lat radius_km = Return (radius_km / lng_divisor lat).
Proof.
  unfold lng_delta. apply truediv_nonzero.
  pose proof (lng_divisor_floor lat). lra.
Qed.

Lemma lng_delta_positive lat radius_km :
  0 < radius_km -> 0 < radius_km / lng_divisor lat.
Proof.
  intros H. apply Rdiv_lt_0_compat; [exact H|].
  pose proof (lng_divisor_floor lat). lra.
Qed.

Lemma lng_delta_ceiling lat radius_km :
  0 <= radius_km -> radius_km / lng_divisor lat <= radius_km / 1.11.
Proof.
  intros H. pose proof (lng_divisor_floor lat) as F.
  unfold Rdiv. apply Rmult_le_compat_l; [exact H|].
  apply Rinv_le_contravar; lra.
Qed.

Lemma stations_near_configured lat lng radius_km w d :
  db w = Some d ->
  stations_near lat lng radius_km w =
  if fst (next_outage d)
  then (Raise PyMongoError, mkWorld (Some (snd (next_outage d))) (calls w ++ [CallFind]))
  else (Return (map to_out
                  (cursor_limit 500
                     (filter (matches (box_filter lat lng (radius_km / 111.0)
                                         (radius_km / lng_divisor lat)))
                        (station d)))),
        mkWorld (Some (snd (next_outage d))) (calls w ++ [CallFind])).
Proof.
  intros E. unfold stations_near, bind, lift.
  rewrite (require_db_some w d E), lat_delta_value, lng_delta_value.
  unfold find. rewrite (store_call_some _ _ w d E). cbn [fst snd].
  destruct (fst (next_outage d)); [reflexivity|].
  rewrite mapM_to_out, next_outage_station. reflexivity.
Qed.

Lemma stations_near_returns lat lng radius_km w outs w' :
  stations_near lat lng radius_km w = (Return outs, w') ->
  exists d, db w = Some d /\
    outs = map to_out
             (cursor_limit 500
                (filter (matches (box_filter lat lng (radius_km / 111.0)
                                    (radius_km / lng_divisor lat)))
                   (station d))).
Proof.
  intros H. destruct (db w) as [d|] eqn:E.
  - exists d. split; [reflexivity|].
    rewrite (stations_near_configured _ _ _ w d E) in H.
    destruct (fst (next_outage d)); [discriminate|]. congruence.
  - unfold stations_near, bind in H. rewrite (require_db_none w E) in H.
    discriminate.
Qed.

(** A request within the declared ranges reaches the handler unchanged. *)
Lemma GET_stations_near_valid lat lng radius_km w :
  -90 <= lat <= 90 -> -180 <= lng <= 180 -> 0 < radius_km <= 1000 ->
  GET_stations_near lat lng (Some radius_km) w = stations_near lat lng radius_km w.
Proof.
  intros Hlat Hlng Hr. unfold GET_stations_near, bind, lift.
  unfold Query_lat, Query_lng, Query_radius_km.
  rewrite (Rleb_true (-90) lat), (Rleb_true lat 90) by lra.
  rewrite (Rleb_true (-180) lng), (Rleb_true lng 180) by lra.
  rewrite (Rltb_true 0 radius_km), (Rleb_true radius_km 1000) by lra.
  reflexivity.
Qed.

Lemma centre_in_box lat lng dlat dlng d :
  0 <= dlat -> 0 <= dlng ->
  latitude (fields d) = lat -> longitude (fields d) = lng ->
  matches (box_filter lat lng dlat dlng) d = true.
Proof.
  intros Ha Hb El Eg. rewrite matches_box. apply in_box_spec.
  rewrite El, Eg. lra.
Qed.

Lemma cursor_limit_all {A} n (l : list A) :
  (Z.of_nat (List.length l) <= n)%Z -> cursor_limit n l = l.
Proof.
  intros H. unfold cursor_limit. destruct (n =? 0)%Z; [reflexivity|].
  apply firstn_all2. lia.
Qed.

(** * Further properties of the handlers *)

(** ** The filter of [list_stations] *)

(** X1.  The filter of [list_stations] has one entry for each parameter in
    effect and none besides: under its own key each of them is found intact,
    so no parameter overrides another.  A document matches the filter
    exactly when the four constraints hold of it, the constraints on [city]
    and [q] being the engine's search for the parameter as a pattern. *)
Theorem filter_keeps_every_parameter :
  forall (connector : option string) (min_power : option R) (c q : option string),
    let f := build_filter connector min_power c q in
    List.length f =
      (present (truthy connector) + present min_power +
       present (truthy c) + present (truthy q))%nat /\
    getitem "connectors" f = option_map (fun x => Cond (Equals x)) (truthy connector) /\
    getitem "power_kw" f = option_map (fun p => Cond (Compare (Some p) None)) min_power /\
    getitem "city" f = option_map (fun x => Cond (Regex x "i")) (truthy c) /\
    getitem "$or" f =
      option_map
        (fun x => Alternatives [[("name", Regex x "i")]; [("address", Regex x "i")]])
        (truthy q) /\
    (forall d, matches f d = all_ok connector min_power c q d).
Proof.
  intros connector min_power c q f. subst f.
  split; [|split; [|split; [|split; [|split]]]];
    try (rewrite build_filter_entries;
         destruct (truthy connector), min_power, (truthy c), (truthy q);
         reflexivity).
  intros d. apply matches_build_filter.
Qed.

Lemma filter_matches_ext connector min_power c q l :
  filter (matches (build_filter connector min_power c q)) l =
  filter (all_ok connector min_power c q) l.
Proof. apply filter_ext. intros d. apply matches_build_filter. Qed.

Lemma cursor_limit_firstn {A} n (l : list A) :
  (1 <= n)%Z -> cursor_limit n l = firstn (Z.to_nat n) l.
Proof.
  intros H. unfold cursor_limit. destruct (Z.eqb_spec n 0); [lia|].
  rewrite Zabs2Nat.abs_nat_nonneg by lia. reflexivity.
Qed.

(** X2.  When [list_stations] returns, with a limit of at least one, its
    result is the first [limit] stored records that meet the four
    constraints, in store order and in the output shape: every station
    returned is a stored one meeting all four, and when no more than [limit]
    stored records meet them, each of those is returned. *)
Theorem list_stations_sound_and_complete :
  forall (connector : option string) (min_power : option R) (c q : option string)
         (limit : Z) (w : World) (outs : list StationOut) (w' : World),
    (1 <= limit)%Z ->
    list_stations connector min_power c q limit w = (Return outs, w') ->
    outs = map to_out
             (firstn (Z.to_nat limit)
                (filter (all_ok connector min_power c q) (stored w))) /\
    Forall (fun o => exists d, In d (stored w) /\ o = to_out d /\
                               all_ok connector min_power c q d = true) outs /\
    ((List.length (filter (all_ok connector min_power c q) (stored w))
      <= Z.to_nat limit)%nat ->
     forall d, In d (stored w) -> all_ok connector min_power c q d = true ->
               In (to_out d) outs).
Proof.
  intros connector min_power c q limit w outs w' Hl H.
  destruct (list_stations_returns _ _ _ _ _ _ _ _ H) as [d0 [E ->]].
  unfold stored. rewrite E.
  rewrite filter_matches_ext, cursor_limit_firstn by exact Hl.
  split; [reflexivity|]. split.
  - apply Forall_forall. intros o Ho. apply in_map_iff in Ho.
    destruct Ho as [d [<- Hd]]. exists d.
    assert (Hin : In d (filter (all_ok connector min_power c q) (station d0))).
    { rewrite <- (firstn_skipn (Z.to_nat limit)). apply in_or_app. left. exact Hd. }
    apply filter_In in Hin. destruct Hin as [Hs Hok]. auto.
  - intros Hlen d Hd Hok. apply in_map.
    rewrite firstn_all2 by exact Hlen. apply filter_In. auto.
Qed.

(** X3.  Each parameter can only narrow the filter: a document that matches
    with a set of parameters still matches when any of them is left out,
    and so matches the empty filter. *)
Theorem parameters_only_narrow :
  forall (connector : option string) (min_power : option R) (c q : option string)
         (d : Doc),
    matches (build_filter connector min_power c q) d = true ->
    matches (build_filter None min_power c q) d = true /\
    matches (build_filter connector None c q) d = true /\
    matches (build_filter connector min_power None q) d = true /\
    matches (build_filter connector min_power c None) d = true /\
    matches (build_filter None None None None) d = true.
Proof.
  intros connector min_power c q d H.
  rewrite matches_build_filter in H.
  apply andb_prop in H. destruct H as [H Hq].
  apply andb_prop in H. destruct H as [H Hc].
  apply andb_prop in H. destruct H as [Hk Hp].
  rewrite !matches_build_filter.
  change (connector_ok None d) with true.
  change (power_ok None d) with true.
  change (city_ok None d) with true.
  change (q_ok None d) with true.
  rewrite Hk, Hp, Hc, Hq. repeat split.
Qed.

(** X4.  The power bound is monotone: a document that matches with the
    bound [p2] matches with any lower bound [p1], the other parameters being
    the same. *)
Theorem lower_min_power_keeps_matches :
  forall (connector : option string) (c q : option string) (p1 p2 : R) (d : Doc),
    p1 <= p2 ->
    matches (build_filter connector (Some p2) c q) d = true ->
    matches (build_filter connector (Some p1) c q) d = true.
Proof.
  intros connector c q p1 p2 d Hp H.
  rewrite matches_build_filter in *.
  apply andb_prop in H. destruct H as [H Hq].
  apply andb_prop in H. destruct H as [H Hc].
  apply andb_prop in H. destruct H as [Hk H2].
  rewrite Hk, Hc, Hq, !andb_true_r. cbn [andb power_ok] in *.
  apply power_at_least_spec in H2. destruct H2 as [x [E Hx]].
  apply power_at_least_spec. exists x. split; [exact E | lra].
Qed.

Lemma filter_none {A} (p : A -> bool) l :
  (forall x, p x = false) -> filter p l = [].
Proof.
  intros H. induction l as [|a r IH]; [reflexivity|].
  cbn [filter]. rewrite H. exact IH.
Qed.

(** X5.  The connector is compared as it is, letter case included: a
    non-empty [connector] that is none of the six names of [ConnectorType]
    matches no document, and [list_stations] then returns no station. *)
Theorem unknown_connector_matches_nothing :
  forall (connector : string) (min_power : option R) (c q : option string),
    connector <> "" ->
    (forall t : ConnectorType, connector_name t <> connector) ->
    (forall d, matches (build_filter (Some connector) min_power c q) d = false) /\
    (forall limit w outs w',
        list_stations (Some connector) min_power c q limit w = (Return outs, w') ->
        outs = []).
Proof.
  intros connector min_power c q Hne Hnone.
  assert (M : forall d, matches (build_filter (Some connector) min_power c q) d = false).
  { intros d. rewrite matches_build_filter.
    assert (K : connector_ok (Some connector) d = false).
    { unfold connector_ok. destruct connector as [|a r]; [contradiction|].
      cbn [truthy]. apply not_true_is_false. intros T.
      apply existsb_exists in T. destruct T as [x [Hx Ex]].
      apply in_map_iff in Hx. destruct Hx as [t [<- _]].
      apply String.eqb_eq in Ex. apply (Hnone t). symmetry. exact Ex. }
    rewrite K. reflexivity. }
  split; [exact M|].
  intros limit w outs w' H.
  destruct (list_stations_returns _ _ _ _ _ _ _ _ H) as [d0 [_ ->]].
  assert (F : filter (matches (build_filter (Some connector) min_power c q)) (station d0) = []).
  { apply filter_none. exact M. }
  rewrite F. unfold cursor_limit. destruct (limit =? 0)%Z; [reflexivity|].
  rewrite firstn_nil. reflexivity.
Qed.

(** X6.  A record with no [power_kw] matches no filter that carries a
    [min_power], whatever the bound, and a record with no [city] matches no
    filter that carries a non-empty [city], whatever the engine. *)
Theorem missing_field_never_matches :
  forall (connector : option string) (min_power : option R) (c q : option string)
         (d : Doc),
    (power_kw (fields d) = None -> min_power <> None ->
     matches (build_filter connector min_power c q) d = false) /\
    (city (fields d) = None -> truthy c <> None ->
     matches (build_filter connector min_power c q) d = false).
Proof.
  intros connector min_power c q d. split.
  - intros E Hp. rewrite matches_build_filter.
    destruct min_power as [p|]; [|contradiction].
    cbn [power_ok]. unfold power_at_least. rewrite E.
    rewrite andb_false_r. reflexivity.
  - intros E Hc. rewrite matches_build_filter.
    unfold city_ok. destruct (truthy c) as [x|]; [|contradiction].
    rewrite E. cbn [searched]. rewrite andb_false_r. reflexivity.
Qed.

(** ** What the handlers do to the store and how they answer *)

Lemma stored_after_outage w d c :
  db w = Some d ->
  stored (mkWorld (Some (snd (next_outage d))) c) = stored w.
Proof.
  intros E. unfold stored. cbn [db]. rewrite E. apply next_outage_station.
Qed.

Lemma stations_near_unconfigured lat lng radius_km w :
  db w = None -> stations_near lat lng radius_km w = (Raise unconfigured, w).
Proof.
  intros E. unfold stations_near, bind. rewrite (require_db_none w E). reflexivity.
Qed.

Lemma get_station_unconfigured station_id w :
  db w = None -> get_station station_id w = (Raise unconfigured, w).
Proof.
  intros E. unfold get_station, bind. rewrite (require_db_none w E). reflexivity.
Qed.

(** X7.  The three reading handlers never change the collection: whatever
    their arguments and their outcome, the stored records afterwards are the
    stored records before, and at most one call has gone to the store, a
    [find] for [list_stations] and [stations_near], a [find_one] for
    [get_station]. *)
Theorem reading_handlers_leave_the_collection :
  forall w : World,
    (forall connector min_power c q limit,
        let w' := snd (list_stations connector min_power c q limit w) in
        stored w' = stored w /\
        (calls w' = calls w \/ calls w' = (calls w ++ [CallFind])%list)) /\
    (forall lat lng radius_km,
        let w' := snd (stations_near lat lng radius_km w) in
        stored w' = stored w /\
        (calls w' = calls w \/ calls w' = (calls w ++ [CallFind])%list)) /\
    (forall station_id,
        let w' := snd (get_station station_id w) in
        stored w' = stored w /\
        (calls w' = calls w \/ calls w' = (calls w ++ [CallFindOne])%list)).
Proof.
  intros w. destruct (db w) as [d|] eqn:E.
  - split; [|split].
    + intros. subst w'. rewrite (list_stations_configured _ _ _ _ _ w d E).
      destruct (fst (next_outage d)); cbn [snd calls];
        (split; [apply stored_after_outage; exact E | right; reflexivity]).
    + intros. subst w'. rewrite (stations_near_configured _ _ _ w d E).
      destruct (fst (next_outage d)); cbn [snd calls];
        (split; [apply stored_after_outage; exact E | right; reflexivity]).
    + intros. subst w'. rewrite (get_station_configured _ w d E).
      destruct (well_formed_id station_id); [|cbn [snd]; auto].
      destruct (fst (next_outage d)); [|destruct (List.find _ (station d))];
        cbn [snd calls];
        (split; [apply stored_after_outage; exact E | right; reflexivity]).
  - split; [|split]; intros; subst w'.
    + rewrite (list_stations_unconfigured _ _ _ _ _ w E). cbn [snd]. auto.
    + rewrite (stations_near_unconfigured _ _ _ w E). cbn [snd]. auto.
    + rewrite (get_station_unconfigured _ w E). cbn [snd]. auto.
Qed.

Lemma create_document_outcome collection_name s w :
  (exists oid, fst (create_document collection_name s w) = Return oid) \/
  fst (create_document collection_name s w) = Raise unconfigured \/
  fst (create_document collection_name s w) = Raise PyMongoError.
Proof.
  unfold create_document. destruct (db w) as [d|] eqn:E; [|auto].
  rewrite (store_call_some _ _ w d E).
  destruct (fst (next_outage d)); cbn [fst]; eauto.
Qed.

Lemma seed_loop_outcome l : forall k w,
  (exists n, fst (seed_loop l k w) = Return n) \/
  fst (seed_loop l k w) = Raise unconfigured \/
  fst (seed_loop l k w) = Raise PyMongoError.
Proof.
  induction l as [|s r IH]; intros k w; [left; eexists; reflexivity|].
  cbn [seed_loop]. unfold bind.
  destruct (create_document_outcome "station" s w) as [[oid H] | [H | H]];
    destruct (create_document "station" s w) as [o w1]; cbn [fst] in H; subst o;
    [apply IH | right; left; reflexivity | right; right; reflexivity].
Qed.

(** X8.  The statuses each handler can answer with: [list_stations],
    [stations_near], [create_station] and [seed_demo_data] answer 200 or
    500 and nothing else, so never 400 or 404; [get_station] answers 200,
    400, 404 or 500. *)
Theorem handler_statuses :
  forall w : World,
    (forall connector min_power c q limit,
        let st := response_status (fst (list_stations connector min_power c q limit w)) in
        st = 200%Z \/ st = 500%Z) /\
    (forall lat lng radius_km,
        let st := response_status (fst (stations_near lat lng radius_km w)) in
        st = 200%Z \/ st = 500%Z) /\
    (forall station,
        let st := response_status (fst (create_station station w)) in
        st = 200%Z \/ st = 500%Z) /\
    (let st := response_status (fst (seed_demo_data w)) in
     st = 200%Z \/ st = 500%Z) /\
    (forall station_id,
        let st := response_status (fst (get_station station_id w)) in
        st = 200%Z \/ st = 400%Z \/ st = 404%Z \/ st = 500%Z).
Proof.
  intros w. split; [|split; [|split; [|split]]].
  - intros. subst st. destruct (db w) as [d|] eqn:E.
    + rewrite (list_stations_configured _ _ _ _ _ w d E).
      destruct (fst (next_outage d)); cbn; auto.
    + rewrite (list_stations_unconfigured _ _ _ _ _ w E). cbn. auto.
  - intros. subst st. destruct (db w) as [d|] eqn:E.
    + rewrite (stations_near_configured _ _ _ w d E).
      destruct (fst (next_outage d)); cbn; auto.
    + rewrite (stations_near_unconfigured _ _ _ w E). cbn. auto.
  - intros s0 st. subst st. unfold create_station.
    destruct (create_document_outcome "station" s0 w) as [[oid H] | [H | H]];
      rewrite H; cbn; auto.
  - intros st. subst st. unfold seed_demo_data, bind.
    destruct (db w) as [d|] eqn:E.
    + rewrite (require_db_some w d E). unfold count_documents.
      rewrite (store_call_some _ _ w d E).
      destruct (fst (next_outage d)); [cbn; auto|].
      cbn [fst snd].
      match goal with |- context [if ?b then _ else _] => destruct b end;
        [cbn; auto|].
      match goal with |- context [seed_loop demo 0%Z ?v] =>
        destruct (seed_loop_outcome demo 0%Z v) as [[n H] | [H | H]];
        destruct (seed_loop demo 0%Z v) as [o w1]; cbn [fst] in H; subst o
      end; cbn; auto.
    + rewrite (require_db_none w E). cbn. auto.
  - intros. subst st. destruct (db w) as [d|] eqn:E.
    + rewrite (get_station_configured _ w d E).
      destruct (well_formed_id station_id); [|cbn; auto].
      destruct (fst (next_outage d)); [cbn; auto|].
      destruct (List.find _ (station d)); cbn; auto.
    + rewrite (get_station_unconfigured _ w E). cbn. auto.
Qed.

(** X10.  What [get_station] returns is a stored record filed under the
    identifier asked for: the identifier is well formed, the output carries
    it in lower case, and its fields are those of the first stored record
    with that identifier. *)
Theorem get_station_returns_the_stored_record :
  forall (station_id : string) (w : World) (o : StationOut) (w' : World),
    get_station station_id w = (Return o, w') ->
    well_formed_id station_id = true /\
    id o = string_map lower station_id /\
    exists doc,
      List.find (fun x => _id x =? string_map lower station_id) (stored w) = Some doc /\
      In doc (stored w) /\
      o = to_out doc.
Proof.
  intros station_id w o w' H. destruct (db w) as [d|] eqn:E.
  - rewrite (get_station_configured _ w d E) in H.
    destruct (well_formed_id station_id); [|discriminate].
    destruct (fst (next_outage d)); [discriminate|].
    destruct (List.find _ (station d)) as [doc|] eqn:F; [|discriminate].
    injection H as <- _.
    pose proof (find_some _ _ F) as [Hin Heq]. apply String.eqb_eq in Heq.
    split; [reflexivity|]. split; [exact Heq|].
    exists doc. unfold stored. rewrite E. auto.
  - rewrite (get_station_unconfigured _ w E) in H. discriminate.
Qed.

(** ** The shape of the box *)

(** X12.  The box grows with the radius: a record inside the box of a
    radius is inside the box of any larger radius about the same centre. *)
Theorem box_grows_with_radius :
  forall (lat lng r1 r2 : R) (d : Doc),
    0 <= r1 <= r2 ->
    matches (box_filter lat lng (r1 / 111.0) (r1 / lng_divisor lat)) d = true ->
    matches (box_filter lat lng (r2 / 111.0) (r2 / lng_divisor lat)) d = true.
Proof.
  intros lat lng r1 r2 d Hr H.
  rewrite matches_box in *. apply in_box_spec in H. apply in_box_spec.
  pose proof (lng_divisor_floor lat) as F.
  assert (A : r1 / 111.0 <= r2 / 111.0).
  { unfold Rdiv. apply Rmult_le_compat_r; [|lra].
    apply Rlt_le. apply Rinv_0_lt_compat. lra. }
  assert (B : r1 / lng_divisor lat <= r2 / lng_divisor lat).
  { unfold Rdiv. apply Rmult_le_compat_r; [|lra].
    apply Rlt_le. apply Rinv_0_lt_compat. lra. }
  lra.
Qed.

Lemma lng_divisor_equator : lng_divisor 0 = 111.
Proof.
  unfold lng_divisor. replace (0 * PI / 180) with 0 by lra.
  rewrite cos_0, Rabs_R1. unfold pymax.
  destruct (Rlt_dec 0.01 1); lra.
Qed.

(** X13.  In degrees the box is never narrower than it is tall and at most
    a hundred times as wide: the longitude half-width lies between the
    latitude half-width [radius_km / 111] and [radius_km / 1.11], it equals
    the former on the equator and the latter wherever [|cos lat|] is at
    most 0.01. *)
Theorem box_width_bounds :
  forall lat radius_km : R,
    0 <= radius_km ->
    radius_km / 111.0 <= radius_km / lng_divisor lat <= radius_km / 1.11 /\
    radius_km / lng_divisor 0 = radius_km / 111.0 /\
    (Rabs (cos (lat * PI / 180)) <= 0.01 ->
     radius_km / lng_divisor lat = radius_km / 1.11).
Proof.
  intros lat radius_km Hr.
  pose proof (lng_divisor_floor lat) as F.
  pose proof (lng_divisor_ceiling lat) as C.
  split; [split|split].
  - unfold Rdiv. apply Rmult_le_compat_l; [exact Hr|].
    replace 111.0 with 111 by lra. apply Rinv_le_contravar; lra.
  - apply lng_delta_ceiling. exact Hr.
  - rewrite lng_divisor_equator. f_equal. lra.
  - intros Hc. f_equal. unfold lng_divisor, pymax.
    destruct (Rlt_dec 0.01 (Rabs (cos (lat * PI / 180)))); lra.
Qed.

(** ** Seeding under failures *)

Lemma create_document_effect s w :
  (exists d, db w = Some d /\
     create_document "station" s w =
       (Return (fresh_oid (issued d)),
        mkWorld
          (Some (mkDatabase (station d ++ [mkDoc (fresh_oid (issued d)) s])
                   (N.succ (issued d)) (outages (snd (next_outage d)))))
          (calls w ++ [CallInsert]))) \/
  ((exists e, fst (create_document "station" s w) = Raise e) /\
   stored (snd (create_document "station" s w)) = stored w).
Proof.
  unfold create_document. destruct (db w) as [d|] eqn:E.
  - rewrite (store_call_some _ _ w d E).
    destruct (fst (next_outage d)) eqn:O.
    + right. cbn [fst snd]. split; [eexists; reflexivity|].
      apply stored_after_outage. exact E.
    + left. exists d. split; [reflexivity|]. cbn [fst snd].
      rewrite next_outage_station, next_outage_issued. reflexivity.
  - right. cbn [fst snd]. split; [eexists; reflexivity | reflexivity].
Qed.

Lemma seed_loop_effect l : forall k w,
  exists j,
    (j <= List.length l)%nat /\
    map fields (stored (snd (seed_loop l k w))) =
      (map fields (stored w) ++ firstn j l)%list /\
    (forall n, fst (seed_loop l k w) = Return n ->
               j = List.length l /\ n = (k + Z.of_nat (List.length l))%Z).
Proof.
  induction l as [|s r IH]; intros k w.
  - exists 0%nat. cbn. rewrite app_nil_r. split; [lia|]. split; [reflexivity|].
    intros n [= <-]. split; [reflexivity | lia].
  - cbn [seed_loop]. unfold bind.
    destruct (create_document_effect s w) as [[d [E H]] | [[e H] S]].
    + rewrite H.
      match goal with |- context [seed_loop r ?k1 ?w1] =>
        destruct (IH k1 w1) as [j [Hj [Hm Hn]]]
      end.
      exists (S j). split; [cbn; lia|]. split.
      * rewrite Hm. unfold stored at 1. cbn [db station].
        unfold stored. rewrite E. rewrite map_app, <- app_assoc. reflexivity.
      * intros n Hr. destruct (Hn n Hr) as [-> ->]. split; [reflexivity|].
        cbn [List.length]. lia.
    + destruct (create_document "station" s w) as [o w1].
      cbn [fst snd] in H, S. subst o.
      exists 0%nat. cbn [fst snd firstn]. rewrite app_nil_r, S.
      split; [lia|]. split; [reflexivity|]. intros n Hr. discriminate.
Qed.

(** X14.  [seed_demo_data] never inserts into a collection that holds a
    record, whether or not the store answers: it makes the one counting
    call, leaves the stored records as they were, and either reports zero
    insertions or passes on the failure of the count. *)
Theorem seed_never_adds_to_a_stocked_collection :
  forall (w : World) (d : Database),
    db w = Some d -> station d <> [] ->
    stored (snd (seed_demo_data w)) = stored w /\
    calls (snd (seed_demo_data w)) = (calls w ++ [CallCount])%list /\
    (fst (seed_demo_data w) =
       Return (mkSeedReport 0 (Some "Stations already present")) \/
     fst (seed_demo_data w) = Raise PyMongoError).
Proof.
  intros w d E N. unfold seed_demo_data, bind.
  rewrite (require_db_some w d E). unfold count_documents.
  rewrite (store_call_some _ _ w d E).
  destruct (fst (next_outage d)).
  - cbn [fst snd calls]. split; [apply stored_after_outage; exact E|]. auto.
  - cbn [fst snd]. rewrite next_outage_station, filter_all by reflexivity.
    destruct (station d) as [|x r] eqn:S; [contradiction|].
    cbn [List.length]. rewrite Nat2Z.inj_succ.
    replace (Z.succ (Z.of_nat (List.length r)) >? 0)%Z with true
      by (symmetry; apply Z.gtb_lt; lia).
    cbn [fst snd ret calls]. split; [|auto].
    unfold stored. cbn [db]. rewrite next_outage_station, E, S. reflexivity.
Qed.

(** X15.  Seeding is not undone on failure.  Started on an empty collection,
    [seed_demo_data] leaves the first [j] demo stations stored for some [j]
    up to three, whatever its outcome; when it returns, all three are
    stored and it reports three insertions with no message. *)
Theorem seed_leaves_a_prefix_of_the_demo_set :
  forall w : World,
    stored w = [] ->
    exists j,
      (j <= 3)%nat /\
      map fields (stored (snd (seed_demo_data w))) = firstn j demo /\
      (forall r, fst (seed_demo_data w) = Return r ->
                 j = 3%nat /\ r = mkSeedReport 3 None).
Proof.
  intros w S. unfold seed_demo_data, bind.
  destruct (db w) as [d|] eqn:E.
  - rewrite (require_db_some w d E). unfold count_documents.
    rewrite (store_call_some _ _ w d E).
    assert (Sd : station d = []) by (unfold stored in S; rewrite E in S; exact S).
    destruct (fst (next_outage d)).
    + exists 0%nat. cbn [fst snd firstn]. split; [lia|]. split.
      * rewrite (stored_after_outage w d _ E), S. reflexivity.
      * intros r Hr. discriminate.
    + cbn [fst snd]. rewrite next_outage_station, Sd.
      cbn [filter List.length Z.of_nat Z.gtb Z.compare].
      match goal with |- context [seed_loop demo 0%Z ?v] =>
        destruct (seed_loop_effect demo 0%Z v) as [j [Hj [Hm Hn]]];
        assert (Sv : stored v = [])
          by (unfold stored; cbn [db]; rewrite next_outage_station; exact Sd);
        destruct (seed_loop demo 0%Z v) as [o w1] eqn:L
      end.
      rewrite Sv in Hm. cbn [map app fst snd] in Hm, Hn.
      exists j. split; [exact Hj|].
      destruct o as [n|e]; cbn [fst snd ret].
      * split; [exact Hm|]. intros r [= <-].
        destruct (Hn n eq_refl) as [-> ->]. split; reflexivity.
      * split; [exact Hm|]. intros r Hr. discriminate.
  - rewrite (require_db_none w E). exists 0%nat. cbn [fst snd firstn].
    split; [lia|]. split; [rewrite S; reflexivity|]. intros r Hr. discriminate.
Qed.

(** ** Refused requests, the schema and the diagnostic *)

(** X16.  A request whose [limit], [lat], [lng] or [radius_km] is outside
    its declared range is answered 422 and the world is left untouched: the
    handler is not entered, so no store call is made and the answer is the
    same with or without a configured store. *)
Theorem out_of_range_requests_are_refused :
  forall w : World,
    (forall connector min_power c q limit,
        (limit < 1 \/ 1000 < limit)%Z ->
        let r := GET_stations connector min_power c q (Some limit) w in
        response_status (fst r) = 422%Z /\ snd r = w) /\
    (forall lat lng radius_km,
        lat < -90 \/ 90 < lat \/ lng < -180 \/ 180 < lng ->
        let r := GET_stations_near lat lng radius_km w in
        response_status (fst r) = 422%Z /\ snd r = w) /\
    (forall lat lng radius_km,
        radius_km <= 0 \/ 1000 < radius_km ->
        let r := GET_stations_near lat lng (Some radius_km) w in
        response_status (fst r) = 422%Z /\ snd r = w).
Proof.
  intros w. split; [|split].
  - intros connector min_power c q limit H r. subst r.
    unfold GET_stations, bind, lift, Query_limit.
    replace ((1 <=? limit) && (limit <=? 1000))%Z with false; [split; reflexivity|].
    symmetry. apply andb_false_iff. destruct H as [H | H].
    + left. apply Z.leb_gt. exact H.
    + right. apply Z.leb_gt. exact H.
  - intros lat lng radius_km H r. subst r.
    unfold GET_stations_near, bind, lift, Query_lat, Query_lng.
    destruct (Rle_dec (-90) lat) as [A | A];
      [rewrite (Rleb_true _ _ A) | rewrite (Rleb_false (-90) lat) by lra;
                                   split; reflexivity].
    destruct (Rle_dec lat 90) as [B | B];
      [rewrite (Rleb_true _ _ B) | rewrite (Rleb_false lat 90) by lra;
                                   split; reflexivity].
    cbn [andb fst snd].
    destruct (Rle_dec (-180) lng) as [C | C];
      [rewrite (Rleb_true _ _ C) | rewrite (Rleb_false (-180) lng) by lra;
                                   split; reflexivity].
    destruct (Rle_dec lng 180) as [D | D];
      [lra | rewrite (Rleb_false lng 180) by lra; split; reflexivity].
  - intros lat lng radius_km H r. subst r.
    unfold GET_stations_near, bind, lift.
    assert (Q : Query_radius_km (Some radius_km) =
                Raise (RequestValidationError "radius_km")).
    { unfold Query_radius_km, Rltb. destruct (Rlt_dec 0 radius_km) as [P | P].
      - rewrite (Rleb_false radius_km 1000) by lra. reflexivity.
      - reflexivity. }
    rewrite Q.
    destruct (Query_lat lat) as [a | e] eqn:La; [|unfold Query_lat in La;
      destruct (Rleb (-90) lat && Rleb lat 90); inversion La; split; reflexivity].
    destruct (Query_lng lng) as [b | e] eqn:Lb; [|unfold Query_lng in Lb;
      destruct (Rleb (-180) lng && Rleb lng 180); inversion Lb; split; reflexivity].
    split; reflexivity.
Qed.

Lemma demo_is_valid : Forall Station_valid demo.
Proof.
  unfold demo. repeat constructor; cbn; lra.
Qed.

Lemma Forall_firstn {A} (P : A -> Prop) n l : Forall P l -> Forall P (firstn n l).
Proof.
  intros H. rewrite <- (firstn_skipn n l) in H.
  apply Forall_app in H. tauto.
Qed.

Lemma all_valid_fields w :
  all_valid w <-> Forall Station_valid (map fields (stored w)).
Proof. unfold all_valid. rewrite Forall_map. reflexivity. Qed.

Lemma seed_demo_data_effect w :
  exists j,
    map fields (stored (snd (seed_demo_data w))) =
    (map fields (stored w) ++ firstn j demo)%list.
Proof.
  unfold seed_demo_data, bind. destruct (db w) as [d|] eqn:E.
  - rewrite (require_db_some w d E). unfold count_documents.
    rewrite (store_call_some _ _ w d E).
    destruct (fst (next_outage d)).
    + exists 0%nat. cbn [fst snd firstn].
      rewrite (stored_after_outage w d _ E), app_nil_r. reflexivity.
    + cbn [fst snd].
      match goal with |- context [if ?b then _ else _] => destruct b end.
      * exists 0%nat. cbn [fst snd firstn ret].
        rewrite (stored_after_outage w d _ E), app_nil_r. reflexivity.
      * match goal with |- context [seed_loop demo 0%Z ?v] =>
          destruct (seed_loop_effect demo 0%Z v) as [j [_ [Hm _]]];
          assert (Sv : stored v = stored w) by (apply stored_after_outage; exact E);
          destruct (seed_loop demo 0%Z v) as [o w1]
        end.
        exists j. rewrite Sv in Hm. cbn [snd] in Hm.
        destruct o; cbn [fst snd ret]; exact Hm.
  - rewrite (require_db_none w E). exists 0%nat. cbn [snd firstn].
    rewrite app_nil_r. reflexivity.
Qed.

(** X17.  The constraints of the [Station] schema are an invariant of the
    collection: if every stored station meets them, so does every stored
    station after any handler has run, with [create_station] given a
    station that meets them; and then every station that [list_stations],
    [stations_near] or [get_station] returns meets them. *)
Theorem schema_constraints_are_kept :
  forall w : World,
    all_valid w ->
    (forall connector min_power c q limit,
        all_valid (snd (list_stations connector min_power c q limit w))) /\
    (forall lat lng radius_km, all_valid (snd (stations_near lat lng radius_km w))) /\
    (forall station_id, all_valid (snd (get_station station_id w))) /\
    (forall s, Station_valid s -> all_valid (snd (create_station s w))) /\
    all_valid (snd (seed_demo_data w)) /\
    (forall connector min_power c q limit outs w',
        list_stations connector min_power c q limit w = (Return outs, w') ->
        Forall (fun o => Station_valid (station_of o)) outs) /\
    (forall lat lng radius_km outs w',
        stations_near lat lng radius_km w = (Return outs, w') ->
        Forall (fun o => Station_valid (station_of o)) outs) /\
    (forall station_id o w',
        get_station station_id w = (Return o, w') ->
        Station_valid (station_of o)).
Proof.
  intros w V.
  assert (Vd : forall d, In d (stored w) -> Station_valid (fields d)).
  { apply Forall_forall. exact V. }
  assert (Keep : forall w1, stored w1 = stored w -> all_valid w1).
  { intros w1 S. unfold all_valid. rewrite S. exact V. }
  split; [|split; [|split; [|split; [|split; [|split; [|split]]]]]].
  - intros. apply Keep. destruct (db w) as [d|] eqn:E.
    + rewrite (list_stations_configured _ _ _ _ _ w d E).
      destruct (fst (next_outage d)); apply stored_after_outage; exact E.
    + rewrite (list_stations_unconfigured _ _ _ _ _ w E). reflexivity.
  - intros. apply Keep. destruct (db w) as [d|] eqn:E.
    + rewrite (stations_near_configured _ _ _ w d E).
      destruct (fst (next_outage d)); apply stored_after_outage; exact E.
    + rewrite (stations_near_unconfigured _ _ _ w E). reflexivity.
  - intros. apply Keep. destruct (db w) as [d|] eqn:E.
    + rewrite (get_station_configured _ w d E).
      destruct (well_formed_id station_id); [|reflexivity].
      destruct (fst (next_outage d)); [|destruct (List.find _ (station d))];
        apply stored_after_outage; exact E.
    + rewrite (get_station_unconfigured _ w E). reflexivity.
  - intros s Hs. unfold create_station.
    destruct (create_document_effect s w) as [[d [E H]] | [_ S]].
    + rewrite H. unfold all_valid, stored. cbn [snd db station].
      apply Forall_app. split.
      * unfold all_valid, stored in V. rewrite E in V. exact V.
      * constructor; [exact Hs | constructor].
    + apply Keep. exact S.
  - apply all_valid_fields. destruct (seed_demo_data_effect w) as [j ->].
    apply Forall_app. split.
    + apply all_valid_fields. exact V.
    + apply Forall_firstn. apply demo_is_valid.
  - intros connector min_power c q limit outs w' H.
    destruct (list_stations_returns _ _ _ _ _ _ _ _ H) as [d [E ->]].
    apply Forall_forall. intros o Ho. apply in_map_iff in Ho.
    destruct Ho as [x [<- Hx]]. apply cursor_limit_incl in Hx.
    apply filter_In in Hx. destruct Hx as [Hx _].
    apply Vd. unfold stored. rewrite E. exact Hx.
  - intros lat lng radius_km outs w' H.
    destruct (stations_near_returns _ _ _ _ _ _ H) as [d [E ->]].
    apply Forall_forall. intros o Ho. apply in_map_iff in Ho.
    destruct Ho as [x [<- Hx]]. apply cursor_limit_incl in Hx.
    apply filter_In in Hx. destruct Hx as [Hx _].
    apply Vd. unfold stored. rewrite E. exact Hx.
  - intros station_id o w' H. destruct (db w) as [d|] eqn:E.
    + rewrite (get_station_configured _ w d E) in H.
      destruct (well_formed_id station_id); [|discriminate].
      destruct (fst (next_outage d)); [discriminate|].
      destruct (List.find _ (station d)) as [doc|] eqn:F; [|discriminate].
      injection H as <- _. apply find_some in F. destruct F as [Hin _].
      apply Vd. unfold stored. rewrite E. exact Hin.
    + rewrite (get_station_unconfigured _ w E) in H. discriminate.
Qed.

Ltac pick_member := repeat (first [left; reflexivity | right]).

(** X18.  The filters name no field the schema does not have: every field
    key in the filter of [list_stations] and in the box filter of
    [stations_near] is one of the field names [get_schema] lists, and a
    stored record holds a value, possibly null, under each listed name. *)
Theorem filters_name_schema_fields :
  forall (connector : option string) (min_power : option R) (c q : option string)
         (lat lng dlat dlng : R) (d : Doc),
    List.length get_schema = 16%nat /\
    NoDup get_schema /\
    Forall (fun k => In k get_schema)
      (filter_keys (build_filter connector min_power c q)) /\
    Forall (fun k => In k get_schema) (filter_keys (box_filter lat lng dlat dlng)) /\
    Forall (fun k => get_field k d <> VMissing) get_schema.
Proof.
  intros connector min_power c q lat lng dlat dlng d.
  split; [reflexivity|]. split.
  { unfold get_schema, Station_model_fields.
    repeat (constructor; [cbn [In]; intuition discriminate|]). constructor. }
  split.
  { rewrite build_filter_entries.
    destruct (truthy connector), min_power, (truthy c), (truthy q);
      cbn; repeat (constructor; [pick_member|]); constructor. }
  split.
  { cbn. repeat (constructor; [pick_member|]); constructor. }
  unfold get_schema, Station_model_fields.
  repeat (constructor;
          [cbn; try destruct (network (fields d)); try destruct (address (fields d));
           try destruct (city (fields d)); try destruct (state (fields d));
           try destruct (country (fields d)); try destruct (postal_code (fields d));
           try destruct (power_kw (fields d)); try destruct (price (fields d));
           try destruct (available (fields d)); try destruct (phone (fields d));
           try destruct (hours (fields d)); discriminate|]).
  constructor.
Qed.

(** X19.  The diagnostic of [GET /test] reports a connection exactly when
    the handle is there and listing the collections answered; it then says
    the store is working and lists the first ten collection names at most,
    and otherwise lists none.  The backend is always reported as running,
    the database text is never the initial "Not Available", and the URL is
    reported as set exactly when the handle is there and [DATABASE_URL] is a
    non-empty string. *)
Theorem diagnostic_report :
  forall (getenv : string -> option string) (handle : option Handle),
    let r := test_database getenv handle in
    backend r = "✅ Running" /\
    (connection_status r = "Connected" <->
     exists h l, handle = Some h /\ list_collection_names h = Names l) /\
    (connection_status r = "Connected" -> database r = "✅ Connected & Working") /\
    (forall h l, handle = Some h -> list_collection_names h = Names l ->
                 collections r = firstn 10 l) /\
    (connection_status r <> "Connected" -> collections r = []) /\
    (List.length (collections r) <= 10)%nat /\
    database r <> "❌ Not Available" /\
    (database_url r = Some "✅ Set" <->
     handle <> None /\ exists v, getenv "DATABASE_URL" = Some v /\ v <> "").
Proof.
  intros getenv handle r. subst r. unfold test_database.
  assert (U : forall o : option string,
             match truthy o with Some _ => "✅ Set" | None => "❌ Not Set" end = "✅ Set"
             <-> exists v, o = Some v /\ v <> "").
  { intros [[|a v]|]; cbn; split; intros H.
    - discriminate.
    - destruct H as [v [[= <-] N]]. contradiction.
    - eexists. split; [reflexivity | discriminate].
    - reflexivity.
    - discriminate.
    - destruct H as [v [H _]]. discriminate. }
  destruct handle as [h|].
  - destruct (list_collection_names h) as [l | text] eqn:L; cbn -[firstn].
    + split; [reflexivity|]. split; [split; eauto|]. split; [reflexivity|].
      split; [intros h' l' [= <-] E; rewrite L in E; injection E as <-; reflexivity|].
      split; [intros N; contradiction|].
      split; [apply firstn_le_length|]. split; [discriminate|].
      split.
      * intros [= E]. split; [discriminate|]. apply U. exact E.
      * intros [_ E]. f_equal. apply U. exact E.
    + split; [reflexivity|]. split.
      { split; [discriminate|]. intros [h' [l' [[= <-] E]]]. rewrite L in E. discriminate. }
      split; [discriminate|].
      split; [intros h' l' [= <-] E; rewrite L in E; discriminate|].
      split; [reflexivity|]. split; [lia|]. split; [discriminate|].
      split.
      * intros [= E]. split; [discriminate|]. apply U. exact E.
      * intros [_ E]. f_equal. apply U. exact E.
  - cbn. split; [reflexivity|]. split.
    { split; [discriminate|]. intros [h [l [E _]]]. discriminate. }
    split; [discriminate|]. split; [intros h l E; discriminate|].
    split; [reflexivity|]. split; [lia|]. split; [discriminate|].
    split; [discriminate|]. intros [N _]. contradiction.
Qed.

(** ** Creating and fetching *)

Lemma below_sixteen n : (n < 16)%N -> In n sixteen.
Proof.
  intros H. unfold sixteen. rewrite <- (N2Nat.id n). apply in_map.
  apply in_seq. lia.
Qed.

Lemma hex_digit_plain n :
  (n < 16)%N -> is_hex (hex_digit n) = true /\ lower (hex_digit n) = hex_digit n.
Proof.
  intros H. apply below_sixteen in H. revert n H. apply Forall_forall.
  unfold sixteen. cbn [seq map]. repeat constructor.
Qed.

Lemma hex_digit_inj a b :
  (a < 16)%N -> (b < 16)%N -> hex_digit a = hex_digit b -> a = b.
Proof.
  intros Ha Hb E. apply below_sixteen in Ha. apply below_sixteen in Hb.
  assert (T : forallb (fun x => forallb (fun y =>
                implb (Ascii.eqb (hex_digit x) (hex_digit y)) (N.eqb x y)) sixteen)
                sixteen = true) by (vm_compute; reflexivity).
  rewrite forallb_forall in T. specialize (T a Ha).
  rewrite forallb_forall in T. specialize (T b Hb).
  rewrite E, Ascii.eqb_refl in T. cbn [implb] in T. apply N.eqb_eq. exact T.
Qed.

Lemma hex_of_length k : forall n acc,
  String.length (hex_of k n acc) = (k + String.length acc)%nat.
Proof.
  induction k as [|k IH]; intros n acc; [reflexivity|].
  cbn [hex_of]. rewrite IH. cbn [String.length]. lia.
Qed.

Lemma hex_of_plain k : forall n acc,
  string_forall is_hex acc = true -> string_map lower acc = acc ->
  string_forall is_hex (hex_of k n acc) = true /\
  string_map lower (hex_of k n acc) = hex_of k n acc.
Proof.
  induction k as [|k IH]; intros n acc Ha La; [auto|].
  cbn [hex_of]. apply IH.
  - cbn [string_forall].
    rewrite (proj1 (hex_digit_plain (n mod 16) (N.mod_lt n 16 ltac:(discriminate)))).
    exact Ha.
  - cbn [string_map].
    rewrite (proj2 (hex_digit_plain (n mod 16) (N.mod_lt n 16 ltac:(discriminate)))).
    rewrite La. reflexivity.
Qed.

Lemma hex_of_inj k : forall a b x y,
  hex_of k a x = hex_of k b y -> x = y /\ (a mod 16 ^ N.of_nat k = b mod 16 ^ N.of_nat k)%N.
Proof.
  induction k as [|k IH]; intros a b x y E.
  - cbn [hex_of] in E. split; [exact E|]. cbn. rewrite !N.mod_1_r. reflexivity.
  - cbn [hex_of] in E. apply IH in E. destruct E as [E M].
    injection E as D <-. split; [reflexivity|].
    apply hex_digit_inj in D; try (apply N.mod_lt; discriminate).
    rewrite Nat2N.inj_succ, N.pow_succ_r', !N.Div0.mod_mul_r, D, M. reflexivity.
Qed.

Lemma fresh_oid_inj a b :
  (a < 16 ^ 24)%N -> (b < 16 ^ 24)%N -> fresh_oid a = fresh_oid b -> a = b.
Proof.
  intros Ha Hb E. unfold fresh_oid in E. apply hex_of_inj in E.
  destruct E as [_ E]. change (N.of_nat 24) with 24%N in E.
  rewrite !N.mod_small in E by assumption. exact E.
Qed.

Lemma fresh_oid_plain n :
  well_formed_id (fresh_oid n) = true /\ string_map lower (fresh_oid n) = fresh_oid n.
Proof.
  unfold well_formed_id, fresh_oid. rewrite hex_of_length.
  destruct (hex_of_plain 24 n EmptyString eq_refl eq_refl) as [H L].
  rewrite H, L. split; reflexivity.
Qed.

Lemma find_past {A} (f : A -> bool) l1 l2 :
  (forall x, In x l1 -> f x = false) -> List.find f (l1 ++ l2) = List.find f l2.
Proof.
  induction l1 as [|a r IH]; intros H; [reflexivity|].
  cbn [app List.find]. rewrite (H a (or_introl eq_refl)).
  apply IH. intros x Hx. apply H. right. exact Hx.
Qed.

(** X20.  Round trip of creating and fetching, with the insertion done by
    [create_document] as modelled from the store contract: on a store that
    answers and whose identifiers are the ones it handed out,
    [create_station] returns an identifier under which [get_station] then
    returns the station just given, field for field, carrying that
    identifier. *)
Theorem create_then_get_round_trip :
  forall (s : Station) (w : World) (d : Database),
    db w = Some d -> outages d = [] -> ids_issued w ->
    exists oid w1 w2,
      create_station s w = (Return oid, w1) /\
      get_station oid w1 = (Return (mkStationOut oid s), w2) /\
      stored w2 = (stored w ++ [mkDoc oid s])%list.
Proof.
  intros s w d E C I. unfold ids_issued in I. rewrite E in I.
  destruct I as [B I].
  exists (fresh_oid (issued d)). do 2 eexists.
  split; [apply create_document_calm; assumption|].
  erewrite get_station_configured by reflexivity.
  destruct (fresh_oid_plain (issued d)) as [P L]. rewrite P, L.
  cbn [fst snd next_outage outages station issued calls].
  rewrite find_past.
  - cbn [List.find _id]. rewrite String.eqb_refl.
    split; [reflexivity|]. unfold stored. cbn [snd db station].
    rewrite E. reflexivity.
  - intros x Hx. rewrite Forall_forall in I.
    destruct (I x Hx) as [k [Hk Ek]]. apply String.eqb_neq. rewrite Ek.
    intros Q. apply fresh_oid_inj in Q; lia.
Qed.

(** ** Listing again and fetching what was listed *)

(** X21.  Raising the limit only appends: on the same store, the result of
    [list_stations] with a limit [n] is the first [n] records of its result
    with any larger limit, the other parameters being the same. *)
Theorem smaller_limit_gives_a_prefix :
  forall (connector : option string) (min_power : option R) (c q : option string)
         (n m : Z) (w : World) (o1 o2 : list StationOut) (w1 w2 : World),
    (1 <= n <= m)%Z ->
    list_stations connector min_power c q n w = (Return o1, w1) ->
    list_stations connector min_power c q m w = (Return o2, w2) ->
    o1 = firstn (Z.to_nat n) o2.
Proof.
  intros connector min_power c q n m w o1 o2 w1 w2 H H1 H2.
  destruct (list_stations_returns _ _ _ _ _ _ _ _ H1) as [d1 [E1 ->]].
  destruct (list_stations_returns _ _ _ _ _ _ _ _ H2) as [d2 [E2 ->]].
  rewrite E1 in E2. injection E2 as <-.
  rewrite !cursor_limit_firstn by lia.
  rewrite firstn_map, firstn_firstn, Nat.min_l by lia. reflexivity.
Qed.

Lemma find_by_id l doc :
  NoDup (map _id l) -> In doc l ->
  List.find (fun x => _id x =? _id doc) l = Some doc.
Proof.
  induction l as [|a r IH]; intros N H; [contradiction|].
  cbn [map] in N. inversion N as [|? ? Na Nr]; subst.
  cbn [List.find]. destruct H as [<- | H].
  - rewrite String.eqb_refl. reflexivity.
  - destruct (String.eqb_spec (_id a) (_id doc)) as [Q | Q].
    + exfalso. apply Na. rewrite Q. apply in_map. exact H.
    + apply IH; assumption.
Qed.

(** X22.  What is listed can be fetched: on a store that answers, whose
    identifiers are the ones it handed out and are distinct, every station
    in a result of [list_stations] is returned unchanged by [get_station]
    called next with the identifier that station carries. *)
Theorem listed_stations_can_be_fetched :
  forall (connector : option string) (min_power : option R) (c q : option string)
         (limit : Z) (w : World) (d : Database) (outs : list StationOut)
         (w' : World) (o : StationOut),
    db w = Some d -> outages d = [] -> ids_issued w ->
    NoDup (map _id (stored w)) ->
    list_stations connector min_power c q limit w = (Return outs, w') ->
    In o outs ->
    exists w'', get_station (id o) w' = (Return o, w'').
Proof.
  intros connector min_power c q limit w d outs w' o E C I N H Ho.
  rewrite (list_stations_configured _ _ _ _ _ w d E) in H.
  rewrite (next_outage_calm d C) in H. cbn [fst snd] in H.
  injection H as <- <-.
  apply in_map_iff in Ho. destruct Ho as [doc [<- Hd]].
  apply cursor_limit_incl in Hd. apply filter_In in Hd. destruct Hd as [Hd _].
  unfold ids_issued in I. rewrite E in I. destruct I as [_ I].
  rewrite Forall_forall in I. destruct (I doc Hd) as [k [_ Ek]].
  unfold stored in N. rewrite E in N.
  erewrite get_station_configured by reflexivity.
  cbn [to_out id]. rewrite Ek.
  destruct (fresh_oid_plain k) as [P L]. rewrite P, L.
  rewrite (next_outage_calm d C). cbn [fst snd]. rewrite <- Ek.
  rewrite (find_by_id _ doc N Hd). eexists. reflexivity.
Qed.

(** * The bounding-box search with rounding *)

Lemma truediv_r_nonzero rnd x y : y <> 0 -> truediv_r rnd x y = Return (rnd (x / y)).
Proof.
  intros H. unfold truediv_r. destruct (Req_dec_T y 0); [contradiction | reflexivity].
Qed.

Lemma truediv_r_returns rnd x y z : truediv_r rnd x y = Return z -> z = rnd (x / y).
Proof.
  unfold truediv_r. destruct (Req_dec_T y 0); [discriminate|]. intros [= <-]. reflexivity.
Qed.

Lemma lng_divisor_r_floor rnd cos_f lat :
  rounding rnd -> 1 <= lng_divisor_r rnd cos_f lat.
Proof.
  intros [Mono [_ One]]. unfold lng_divisor_r. rewrite <- One at 1. apply Mono.
  pose proof (pymax_floor hundredth_r (Rabs (cos_f (rnd (rnd (lat * pi_r) / 180))))) as F.
  unfold hundredth_r in *. lra.
Qed.

Lemma deltas_r rnd cos_f lat radius_km :
  rounding rnd -> 0 < radius_km ->
  lat_delta_r rnd radius_km = Return (rnd (radius_km / 111.0)) /\
  lng_delta_r rnd cos_f lat radius_km =
    Return (rnd (radius_km / lng_divisor_r rnd cos_f lat)) /\
  0 <= rnd (radius_km / 111.0) /\
  0 <= rnd (radius_km / lng_divisor_r rnd cos_f lat).
Proof.
  intros Rn Hr. pose proof (lng_divisor_r_floor rnd cos_f lat Rn) as F.
  destruct Rn as [Mono [Zero _]].
  split; [apply truediv_r_nonzero; lra|].
  split; [apply truediv_r_nonzero; lra|].
  split.
  - rewrite <- Zero at 1. apply Mono. apply Rlt_le. apply Rdiv_lt_0_compat; lra.
  - rewrite <- Zero at 1. apply Mono. apply Rlt_le. apply Rdiv_lt_0_compat; lra.
Qed.

Lemma matches_box_r rnd lat lng dlat dlng d :
  matches (box_filter_r rnd lat lng dlat dlng) d = in_box_r rnd lat lng dlat dlng d.
Proof.
  unfold box_filter_r, in_box_r, matches. cbn. rewrite andb_true_r. reflexivity.
Qed.

Lemma in_box_r_spec rnd lat lng dlat dlng d :
  in_box_r rnd lat lng dlat dlng d = true <->
  rnd (lat - dlat) <= latitude (fields d) <= rnd (lat + dlat) /\
  rnd (lng - dlng) <= longitude (fields d) <= rnd (lng + dlng).
Proof.
  unfold in_box_r. rewrite !andb_true_iff, !Rleb_spec. tauto.
Qed.

Lemma stations_near_r_with_deltas rnd cos_f lat lng radius_km dlat dlng w d :
  db w = Some d ->
  lat_delta_r rnd radius_km = Return dlat ->
  lng_delta_r rnd cos_f lat radius_km = Return dlng ->
  stations_near_r rnd cos_f lat lng radius_km w =
  if fst (next_outage d)
  then (Raise PyMongoError, mkWorld (Some (snd (next_outage d))) (calls w ++ [CallFind]))
  else (Return (map to_out
                  (cursor_limit 500
                     (filter (matches (box_filter_r rnd lat lng dlat dlng)) (station d)))),
        mkWorld (Some (snd (next_outage d))) (calls w ++ [CallFind])).
Proof.
  intros E A B. unfold stations_near_r, bind, lift.
  rewrite (require_db_some w d E), A, B.
  unfold find. rewrite (store_call_some _ _ w d E). cbn [fst snd].
  destruct (fst (next_outage d)); [reflexivity|].
  rewrite mapM_to_out, next_outage_station. reflexivity.
Qed.

Lemma stations_near_r_returns rnd cos_f lat lng radius_km w outs w' :
  stations_near_r rnd cos_f lat lng radius_km w = (Return outs, w') ->
  exists d dlat dlng,
    db w = Some d /\
    lat_delta_r rnd radius_km = Return dlat /\
    lng_delta_r rnd cos_f lat radius_km = Return dlng /\
    outs = map to_out
             (cursor_limit 500
                (filter (matches (box_filter_r rnd lat lng dlat dlng)) (station d))).
Proof.
  intros H. destruct (db w) as [d|] eqn:E.
  - destruct (lat_delta_r rnd radius_km) as [dlat|e1] eqn:A.
    + destruct (lng_delta_r rnd cos_f lat radius_km) as [dlng|e2] eqn:B.
      * rewrite (stations_near_r_with_deltas _ _ _ _ _ _ _ w d E A B) in H.
        destruct (fst (next_outage d)); [discriminate|].
        exists d, dlat, dlng. repeat split; congruence.
      * unfold stations_near_r, bind, lift in H.
        rewrite (require_db_some w d E), A, B in H. discriminate.
    + unfold stations_near_r, bind, lift in H.
      rewrite (require_db_some w d E), A in H. discriminate.
  - unfold stations_near_r, bind in H. rewrite (require_db_none w E) in H.
    discriminate.
Qed.

Lemma in_firstn_past {A} (a b : list A) x n :
  (List.length a < n)%nat -> In x (firstn n (a ++ x :: b)).
Proof.
  intros H. rewrite firstn_app. apply in_or_app. right.
  destruct (n - List.length a)%nat as [|k] eqn:K; [lia|].
  left. reflexivity.
Qed.

(** C6.  With the box computed in binary64, for a valid centre given as
    floats and a positive radius: both deltas are computed and are not
    negative, and the box filter holds of every record whose latitude and
    longitude are those of the centre.  Such a record is in the result of
    the near search when the store answers, the stored records meet the
    schema and fewer than 500 stored records in the box come before it, the
    result being cut to its first 500 matches. *)
Theorem centre_station_is_returned :
  forall (rnd cos_f : R -> R) (lat lng radius_km : R),
    rounding rnd ->
    -90 <= lat <= 90 -> -180 <= lng <= 180 -> 0 < radius_km ->
    rnd lat = lat -> rnd lng = lng ->
    exists dlat dlng,
      lat_delta_r rnd radius_km = Return dlat /\
      lng_delta_r rnd cos_f lat radius_km = Return dlng /\
      0 <= dlat /\ 0 <= dlng /\
      (forall doc,
          latitude (fields doc) = lat -> longitude (fields doc) = lng ->
          matches (box_filter_r rnd lat lng dlat dlng) doc = true) /\
      (forall w d l1 doc l2,
          db w = Some d -> fst (next_outage d) = false -> all_valid w ->
          station d = (l1 ++ doc :: l2)%list ->
          (List.length (filter (matches (box_filter_r rnd lat lng dlat dlng)) l1)
           < 500)%nat ->
          latitude (fields doc) = lat -> longitude (fields doc) = lng ->
          exists outs w',
            stations_near_r rnd cos_f lat lng radius_km w = (Return outs, w') /\
            In (to_out doc) outs).
Proof.
  intros rnd cos_f lat lng radius_km Rn Hlat Hlng Hr Flat Flng.
  destruct (deltas_r rnd cos_f lat radius_km Rn Hr) as [A [B [Pa Pb]]].
  exists (rnd (radius_km / 111.0)), (rnd (radius_km / lng_divisor_r rnd cos_f lat)).
  assert (Centre : forall doc,
             latitude (fields doc) = lat -> longitude (fields doc) = lng ->
             matches (box_filter_r rnd lat lng (rnd (radius_km / 111.0))
                        (rnd (radius_km / lng_divisor_r rnd cos_f lat))) doc = true).
  { intros doc El Eg. rewrite matches_box_r. apply in_box_r_spec.
    rewrite El, Eg. destruct Rn as [Mono _].
    rewrite <- Flat at 2 3. rewrite <- Flng at 2 3.
    repeat split; apply Mono; lra. }
  split; [exact A|]. split; [exact B|]. split; [exact Pa|]. split; [exact Pb|].
  split; [exact Centre|].
  intros w d l1 doc l2 E Hup V S Hl El Eg.
  rewrite (stations_near_r_with_deltas _ _ _ _ _ _ _ w d E A B), Hup.
  do 2 eexists. split; [reflexivity|].
  apply in_map. unfold cursor_limit. change (500 =? 0)%Z with false.
  change (Z.abs_nat 500) with 500%nat. cbv iota.
  rewrite S, filter_app. cbn [filter]. rewrite (Centre doc El Eg).
  apply in_firstn_past. exact Hl.
Qed.

(** C10.  The box of the near search neither wraps at the seam nor clamps:
    with its edges computed in binary64, the box filter holds of a record
    only if the raw latitude of the record lies between the two latitude
    edges and its raw longitude between the two longitude edges, and every
    station the near search returns lies so.  A record whose raw longitude
    is below the lower edge or above the upper edge is not matched, on
    whichever side of the seam it is. *)
Theorem box_never_wraps :
  forall (rnd cos_f : R -> R) (lat lng radius_km : R),
    (forall dlat dlng d,
        matches (box_filter_r rnd lat lng dlat dlng) d = true ->
        rnd (lat - dlat) <= latitude (fields d) <= rnd (lat + dlat) /\
        rnd (lng - dlng) <= longitude (fields d) <= rnd (lng + dlng)) /\
    (forall w outs w',
        stations_near_r rnd cos_f lat lng radius_km w = (Return outs, w') ->
        exists dlat dlng,
          lat_delta_r rnd radius_km = Return dlat /\
          lng_delta_r rnd cos_f lat radius_km = Return dlng /\
          Forall (fun o =>
                    rnd (lat - dlat) <= latitude (station_of o) <= rnd (lat + dlat) /\
                    rnd (lng - dlng) <= longitude (station_of o) <= rnd (lng + dlng))
                 outs) /\
    (forall dlat dlng d,
        longitude (fields d) < rnd (lng - dlng) \/
        rnd (lng + dlng) < longitude (fields d) ->
        matches (box_filter_r rnd lat lng dlat dlng) d = false).
Proof.
  intros rnd cos_f lat lng radius_km.
  assert (Only : forall dlat dlng d,
             matches (box_filter_r rnd lat lng dlat dlng) d = true ->
             rnd (lat - dlat) <= latitude (fields d) <= rnd (lat + dlat) /\
             rnd (lng - dlng) <= longitude (fields d) <= rnd (lng + dlng)).
  { intros dlat dlng d H. rewrite matches_box_r in H. apply in_box_r_spec. exact H. }
  split; [exact Only|]. split.
  - intros w outs w' H.
    destruct (stations_near_r_returns _ _ _ _ _ _ _ _ H) as [d [dlat [dlng [_ [A [B ->]]]]]].
    exists dlat, dlng. split; [exact A|]. split; [exact B|].
    apply Forall_forall. intros o Hin.
    apply in_map_iff in Hin. destruct Hin as [doc [<- Hin]].
    apply cursor_limit_incl in Hin. apply filter_In in Hin.
    destruct Hin as [_ Hm]. apply Only. exact Hm.
  - intros dlat dlng d H. apply not_true_is_false. intros T.
    apply Only in T. lra.
Qed.

(** X9.  On a configured store, an identifier whose length is not 24 is
    answered 400 by [get_station] with no store call and the world
    untouched; an identifier of 24 hexadecimal digits costs exactly one
    [find_one]. *)
Theorem get_station_store_call_depends_on_the_identifier :
  forall (station_id : string) (w : World) (d : Database),
    db w = Some d ->
    (String.length station_id <> 24%nat ->
     get_station station_id w = (Raise (HTTPException 400 "Invalid station id"), w)) /\
    (well_formed_id station_id = true ->
     calls (snd (get_station station_id w)) = (calls w ++ [CallFindOne])%list).
Proof.
  intros station_id w d E. rewrite (get_station_configured _ w d E). split.
  - intros H. unfold well_formed_id.
    replace (String.length station_id =? 24)%nat with false
      by (symmetry; apply Nat.eqb_neq; exact H).
    reflexivity.
  - intros ->. destruct (fst (next_outage d)); [reflexivity|].
    destruct (List.find _ (station d)); reflexivity.
Qed.

(** X11.  When the near search returns, with the box computed in binary64,
    its result is the first 500 stored records that lie between the edges
    of the box, in store order and in the output shape: at most 500
    stations come back, and when no more than 500 stored records lie in the
    box each of them is returned. *)
Theorem stations_near_sound_and_complete :
  forall (rnd cos_f : R -> R) (lat lng radius_km : R) (w : World)
         (outs : list StationOut) (w' : World),
    stations_near_r rnd cos_f lat lng radius_km w = (Return outs, w') ->
    exists dlat dlng,
      lat_delta_r rnd radius_km = Return dlat /\
      lng_delta_r rnd cos_f lat radius_km = Return dlng /\
      outs = map to_out (firstn 500 (filter (in_box_r rnd lat lng dlat dlng) (stored w))) /\
      (List.length outs <= 500)%nat /\
      ((List.length (filter (in_box_r rnd lat lng dlat dlng) (stored w)) <= 500)%nat ->
       forall d, In d (stored w) -> in_box_r rnd lat lng dlat dlng d = true ->
                 In (to_out d) outs).
Proof.
  intros rnd cos_f lat lng radius_km w outs w' H.
  destruct (stations_near_r_returns _ _ _ _ _ _ _ _ H) as [d0 [dlat [dlng [E [A [B ->]]]]]].
  exists dlat, dlng. split; [exact A|]. split; [exact B|].
  unfold stored. rewrite E.
  rewrite (filter_ext _ (in_box_r rnd lat lng dlat dlng))
    by (intros d; apply matches_box_r).
  replace (cursor_limit 500 (filter (in_box_r rnd lat lng dlat dlng) (station d0)))
    with (firstn 500 (filter (in_box_r rnd lat lng dlat dlng) (station d0)))
    by reflexivity.
  split; [reflexivity|]. split.
  - rewrite length_map. apply firstn_le_length.
  - intros Hlen d Hd Hb. apply in_map. rewrite firstn_all2 by exact Hlen.
    apply filter_In. auto.
Qed.

End Store.

(** * Worked instances

    The theorems above at concrete requests, with [wildcard_search] as the
    store's engine. *)

Ltac Rleb_eval :=
  repeat match goal with
         | |- context [Rleb ?a ?b] =>
             first [ rewrite (Rleb_true a b) by lra
                   | rewrite (Rleb_false a b) by lra ]
         end.

(** On the seeded store, [min_power = 60] returns the stations rated 60 and
    120 and leaves out the one rated 50. *)
Lemma min_power_lower_bound_witness :
  exists outs w',
    list_stations wildcard_search None (Some 60) None None 200 seeded_world =
      (Return outs, w') /\
    map (fun o => name (station_of o)) outs =
      ["Chargeway - Indiranagar"; "Chargeway - BKC"] /\
    Forall (fun o => exists x, power_kw (station_of o) = Some x /\ 60 <= x) outs.
Proof.
  assert (E : list_stations wildcard_search None (Some 60) None None 200 seeded_world =
              (Return (map to_out (firstn 2 demo_docs)),
               mkWorld (Some (mkDatabase demo_docs 3 [])) [CallFind])).
  { rewrite (list_stations_configured wildcard_search _ _ _ _ _ seeded_world _ eq_refl).
    cbn [fst snd next_outage outages station issued seeded_world calls app].
    unfold demo_docs, demo. cbn [number_docs filter].
    rewrite !matches_build_filter.
    cbn [connector_ok power_ok city_ok q_ok truthy andb power_at_least fields power_kw].
    Rleb_eval. reflexivity. }
  exists (map to_out (firstn 2 demo_docs)), (mkWorld (Some (mkDatabase demo_docs 3 [])) [CallFind]).
  split; [exact E|]. split; [reflexivity|].
  exact (proj2 (proj2 (proj2 (proj2 (proj2
           (min_power_lower_bound wildcard_search None None None 200)))))
           60 seeded_world _ _ E).
Defined.

Lemma q_is_searched_as_a_pattern_witness :
  (forall c s, c <> "010"%char -> wildcard_search "." "i" (String c s) = true) /\
  fst (list_stations wildcard_search None None None (Some ".") 200 seeded_world) =
    Return (map to_out demo_docs) /\
  Forall (fun d => q_contained "." d = false) demo_docs.
Proof.
  split; [exact wildcard_search_dot|].
  exact (proj2 (q_is_searched_as_a_pattern wildcard_search wildcard_search_dot)).
Defined.

Lemma unconfigured_store_witness :
  db unconfigured_world = None /\
  list_stations wildcard_search (Some "CCS2") (Some 0) None None 200 unconfigured_world =
    (Raise unconfigured, unconfigured_world) /\
  create_station spot unconfigured_world = (Raise unconfigured, unconfigured_world) /\
  seed_demo_data wildcard_search unconfigured_world =
    (Raise unconfigured, unconfigured_world).
Proof.
  pose proof (unconfigured_store_fails_every_endpoint wildcard_search
                unconfigured_world eq_refl) as [L [_ [_ [C [S _]]]]].
  split; [reflexivity|]. split; [apply L|]. split; [apply C | exact S].
Defined.

Lemma seed_is_idempotent_witness :
  db fresh_world = Some (mkDatabase [] 0 []) /\
  exists r1 w1 w2,
    seed_demo_data wildcard_search fresh_world = (Return r1, w1) /\
    seed_demo_data wildcard_search w1 =
      (Return (mkSeedReport 0 (Some "Stations already present")), w2) /\
    stored w2 = stored w1 /\
    List.length (stored w2) = List.length (stored w1).
Proof.
  split; [reflexivity|].
  exact (proj2 (proj2 (seed_is_idempotent wildcard_search fresh_world
                         (mkDatabase [] 0 []) eq_refl eq_refl))).
Defined.

(** The seeded store asked for one record gives one. *)
Lemma limit_bounds_result_witness :
  exists outs w',
    GET_stations wildcard_search None None None None (Some 1%Z) seeded_world =
      (Return outs, w') /\
    exists n, Query_limit (Some 1%Z) = Return n /\
              (1 <= n <= 1000)%Z /\
              (forall m, Some 1%Z = Some m -> n = m) /\
              (Z.of_nat (List.length outs) <= n)%Z.
Proof.
  assert (E : GET_stations wildcard_search None None None None (Some 1%Z) seeded_world =
              (Return (map to_out (firstn 1 demo_docs)),
               mkWorld (Some (mkDatabase demo_docs 3 [])) [CallFind])).
  { unfold GET_stations, bind, lift.
    change (Query_limit (Some 1%Z)) with (@Return Z 1%Z). cbv beta iota.
    rewrite (list_stations_configured wildcard_search _ _ _ _ _ seeded_world _ eq_refl).
    reflexivity. }
  do 2 eexists. split; [exact E|].
  exact (proj2 (proj2 (proj2 (limit_bounds_result wildcard_search None None None None)))
           (Some 1%Z) seeded_world _ _ E).
Defined.

(** The example of the specification: around the Bengaluru station with a
    radius of 25 km, the seeded store returns that station only. *)
Lemma near_bengaluru :
  stations_near wildcard_search 12.9716 77.5946 25 seeded_world =
  (Return (map to_out (firstn 1 demo_docs)),
   mkWorld (Some (mkDatabase demo_docs 3 [])) [CallFind]).
Proof.
  rewrite (stations_near_configured wildcard_search _ _ _ seeded_world _ eq_refl).
  cbn [fst snd next_outage outages station issued seeded_world calls app].
  pose proof (lng_delta_positive 12.9716 25 ltac:(lra)) as P.
  unfold demo_docs, demo. cbn [number_docs filter].
  rewrite !matches_box. unfold in_box. cbn [fields latitude longitude].
  Rleb_eval. reflexivity.
Qed.

(** * Counterexamples *)

Lemma firstn_exact {A} (l1 l2 : list A) n :
  List.length l1 = n -> firstn n (l1 ++ l2) = l1.
Proof.
  intros <-. rewrite firstn_app, firstn_all, Nat.sub_diag, firstn_O.
  apply app_nil_r.
Qed.

Lemma crowd_length : List.length crowd = 500%nat.
Proof. unfold crowd. rewrite length_map, length_seq. reflexivity. Qed.

Lemma crowd_at_spot d : In d (crowd ++ [latecomer]) -> fields d = spot.
Proof.
  intros H. apply in_app_or in H. destruct H as [H | [<- | []]]; [|reflexivity].
  unfold crowd in H. apply in_map_iff in H. destruct H as [n [<- _]]. reflexivity.
Qed.

Lemma latecomer_id_is_new d : In d crowd -> _id d <> _id latecomer.
Proof.
  intros H E. unfold crowd in H. apply in_map_iff in H.
  destruct H as [n [<- Hn]]. cbn [_id latecomer] in E.
  assert (F : forallb (fun k => negb (fresh_oid (N.of_nat k) =? fresh_oid 500))
                (seq 0 500) = true) by (vm_compute; reflexivity).
  rewrite forallb_forall in F. specialize (F n Hn).
  rewrite E, String.eqb_refl in F. discriminate.
Qed.

(** C6 as stated fails: with 500 records at the centre ahead of it in the
    store, a record at the very centre is matched by the filter and still
    absent from the result, which stops at 500. *)
Lemma centre_station_beyond_the_cap :
  -90 <= 12.9716 <= 90 /\ -180 <= 77.5946 <= 180 /\ 0 < 25 /\
  In latecomer (stored crowded_world) /\
  latitude (fields latecomer) = 12.9716 /\
  longitude (fields latecomer) = 77.5946 /\
  exists outs w',
    stations_near wildcard_search 12.9716 77.5946 25 crowded_world = (Return outs, w') /\
    List.length outs = 500%nat /\
    ~ In (to_out latecomer) outs.
Proof.
  split; [lra|]. split; [lra|]. split; [lra|].
  split; [apply in_or_app; right; left; reflexivity|].
  split; [reflexivity|]. split; [reflexivity|].
  exists (map to_out crowd),
         (mkWorld (Some (mkDatabase (crowd ++ [latecomer]) 501 [])) [CallFind]).
  split; [|split].
  - rewrite (stations_near_configured wildcard_search _ _ _ crowded_world _ eq_refl).
    cbn [fst snd next_outage outages station issued crowded_world calls app].
    rewrite filter_all.
    + unfold cursor_limit. change (500 =? 0)%Z with false.
      change (Z.abs_nat 500) with 500%nat. cbv iota.
      rewrite (firstn_exact _ _ _ crowd_length). reflexivity.
    + intros d Hd. apply centre_in_box.
      * apply Rlt_le. apply Rdiv_lt_0_compat; lra.
      * apply Rlt_le. apply lng_delta_positive. lra.
      * rewrite (crowd_at_spot d Hd). reflexivity.
      * rewrite (crowd_at_spot d Hd). reflexivity.
  - rewrite length_map. apply crowd_length.
  - intros H. apply in_map_iff in H. destruct H as [d [E Hd]].
    apply (latecomer_id_is_new d Hd).
    change (id (to_out d) = id (to_out latecomer)). rewrite E. reflexivity.
Qed.

(** C10 as stated fails: centred on the pole at longitude 179 with a radius
    of 1000 km, the longitude delta is 1000/1.11, about 900 degrees, and the
    record filed at the same pole under longitude -179, across the seam and
    at no distance from the centre, is returned. *)
Lemma station_across_the_seam_is_returned :
  -90 <= 90 <= 90 /\ -180 <= 179 <= 180 /\ 0 < 1000 <= 1000 /\
  latitude (fields polar) = 90 /\
  longitude (fields polar) = -179 /\
  180 < 179 - longitude (fields polar) /\
  cos_central_angle 90 179 (latitude (fields polar)) (longitude (fields polar)) = 1 /\
  lng_delta 90 1000 = Return (1000 / 1.11) /\
  stations_near wildcard_search 90 179 1000 polar_world =
    (Return [to_out polar], mkWorld (Some (mkDatabase [polar] 1 [])) [CallFind]).
Proof.
  split; [lra|]. split; [lra|]. split; [lra|].
  split; [reflexivity|]. split; [reflexivity|].
  split; [cbn [polar fields longitude]; lra|].
  split.
  { unfold cos_central_angle. cbn [polar fields latitude longitude].
    replace (90 * PI / 180) with (PI / 2) by lra.
    rewrite sin_PI2, cos_PI2. lra. }
  split.
  { rewrite lng_delta_value. rewrite (proj1 lng_divisor_pole). reflexivity. }
  rewrite (stations_near_configured wildcard_search _ _ _ polar_world _ eq_refl).
  cbn [fst snd next_outage outages station issued polar_world calls app].
  rewrite (proj1 lng_divisor_pole).
  cbn [filter]. rewrite matches_box. unfold in_box.
  cbn [polar fields latitude longitude].
  Rleb_eval. reflexivity.
Qed.

(** * Further worked instances *)

Lemma list_all_seeded n :
  (1 <= n)%Z ->
  list_stations wildcard_search None None None None n seeded_world =
  (Return (map to_out (firstn (Z.to_nat n) demo_docs)),
   mkWorld (Some (mkDatabase demo_docs 3 [])) [CallFind]).
Proof.
  intros H.
  rewrite (list_stations_configured wildcard_search _ _ _ _ _ seeded_world _ eq_refl).
  cbn [fst snd next_outage outages station issued seeded_world calls app].
  rewrite cursor_limit_firstn by exact H.
  rewrite filter_all by reflexivity. reflexivity.
Qed.

Lemma list_rated_60 :
  list_stations wildcard_search None (Some 60) None None 200 seeded_world =
  (Return (map to_out (firstn 2 demo_docs)),
   mkWorld (Some (mkDatabase demo_docs 3 [])) [CallFind]).
Proof.
  rewrite (list_stations_configured wildcard_search _ _ _ _ _ seeded_world _ eq_refl).
  cbn [fst snd next_outage outages station issued seeded_world calls app].
  unfold demo_docs, demo. cbn [number_docs filter].
  rewrite !matches_build_filter.
  cbn [connector_ok power_ok city_ok q_ok truthy andb power_at_least fields power_kw].
  Rleb_eval. reflexivity.
Qed.

Lemma bengaluru_matches p :
  p <= 60 ->
  matches wildcard_search
    (build_filter (Some "CCS2") (Some p) (Some "beng") (Some "feet"))
    (mkDoc (fresh_oid 0) (hd spot demo)) = true.
Proof.
  intros H. rewrite matches_build_filter.
  unfold power_ok, power_at_least. cbn [hd demo fields power_kw].
  rewrite (Rleb_true p 60) by exact H. reflexivity.
Qed.

Lemma list_stations_sound_and_complete_witness :
  (1 <= 200)%Z /\
  exists outs w',
    list_stations wildcard_search None (Some 60) None None 200 seeded_world =
      (Return outs, w') /\
    outs = map to_out
             (firstn (Z.to_nat 200)
                (filter (all_ok wildcard_search None (Some 60) None None)
                   (stored seeded_world))).
Proof.
  assert (H : (1 <= 200)%Z) by lia.
  split; [exact H|]. do 2 eexists. split; [exact list_rated_60|].
  exact (proj1 (list_stations_sound_and_complete wildcard_search _ _ _ _ _ _ _ _
                  H list_rated_60)).
Defined.

Lemma parameters_only_narrow_witness :
  matches wildcard_search
    (build_filter (Some "CCS2") (Some 60) (Some "beng") (Some "feet"))
    (mkDoc (fresh_oid 0) (hd spot demo)) = true /\
  matches wildcard_search (build_filter None None None None)
    (mkDoc (fresh_oid 0) (hd spot demo)) = true.
Proof.
  assert (H := bengaluru_matches 60 ltac:(lra)).
  split; [exact H|].
  exact (proj2 (proj2 (proj2 (proj2
           (parameters_only_narrow wildcard_search _ _ _ _ _ H))))).
Defined.

Lemma lower_min_power_keeps_matches_witness :
  50 <= 60 /\
  matches wildcard_search
    (build_filter (Some "CCS2") (Some 50) (Some "beng") (Some "feet"))
    (mkDoc (fresh_oid 0) (hd spot demo)) = true.
Proof.
  assert (H : 50 <= 60) by lra.
  split; [exact H|].
  exact (lower_min_power_keeps_matches wildcard_search _ _ _ 50 60 _ H
           (bengaluru_matches 60 ltac:(lra))).
Defined.

Lemma no_connector_named_ccs2 : forall t : ConnectorType, connector_name t <> "ccs2".
Proof. intros t. destruct t; discriminate. Qed.

Lemma unknown_connector_matches_nothing_witness :
  "ccs2" <> "" /\
  forall d, matches wildcard_search (build_filter (Some "ccs2") None None None) d = false.
Proof.
  assert (H : "ccs2" <> "") by discriminate.
  split; [exact H|].
  exact (proj1 (unknown_connector_matches_nothing wildcard_search "ccs2" None None None
                  H no_connector_named_ccs2)).
Defined.

Lemma missing_field_never_matches_witness :
  matches wildcard_search (build_filter None (Some (-5)) None None)
    (mkDoc (fresh_oid 0) unrated) = false /\
  matches wildcard_search (build_filter None None (Some "a") None)
    (mkDoc (fresh_oid 0) unrated) = false.
Proof.
  pose proof (missing_field_never_matches wildcard_search None (Some (-5)) None None
                (mkDoc (fresh_oid 0) unrated)) as [P _].
  pose proof (missing_field_never_matches wildcard_search None None (Some "a") None
                (mkDoc (fresh_oid 0) unrated)) as [_ Q].
  split.
  - apply P; [reflexivity | discriminate].
  - apply Q; [reflexivity | discriminate].
Defined.

Lemma get_first_seeded :
  get_station "000000000000000000000000" seeded_world =
  (Return (to_out (mkDoc (fresh_oid 0) (hd spot demo))),
   mkWorld (Some (mkDatabase demo_docs 3 [])) [CallFindOne]).
Proof.
  rewrite (get_station_configured _ seeded_world _ eq_refl). reflexivity.
Qed.

Lemma get_station_returns_the_stored_record_witness :
  exists o w',
    get_station "000000000000000000000000" seeded_world = (Return o, w') /\
    id o = "000000000000000000000000" /\
    name (station_of o) = "Chargeway - Indiranagar".
Proof.
  do 2 eexists. split; [exact get_first_seeded|].
  destruct (get_station_returns_the_stored_record _ _ _ _ get_first_seeded)
    as [_ [I _]].
  split; [exact I | reflexivity].
Defined.

Lemma bengaluru_in_its_box r :
  0 <= r ->
  matches wildcard_search
    (box_filter 12.9716 77.5946 (r / 111.0) (r / lng_divisor 12.9716))
    (mkDoc (fresh_oid 0) (hd spot demo)) = true.
Proof.
  intros H. apply centre_in_box; try reflexivity.
  - unfold Rdiv. apply Rmult_le_pos; [exact H|].
    apply Rlt_le. apply Rinv_0_lt_compat. lra.
  - unfold Rdiv. apply Rmult_le_pos; [exact H|].
    apply Rlt_le. apply Rinv_0_lt_compat.
    pose proof (lng_divisor_floor 12.9716). lra.
Qed.

Lemma box_grows_with_radius_witness :
  0 <= 25 <= 50 /\
  matches wildcard_search
    (box_filter 12.9716 77.5946 (50 / 111.0) (50 / lng_divisor 12.9716))
    (mkDoc (fresh_oid 0) (hd spot demo)) = true.
Proof.
  assert (H : 0 <= 25 <= 50) by lra.
  split; [exact H|].
  exact (box_grows_with_radius wildcard_search _ _ 25 50 _ H
           (bengaluru_in_its_box 25 ltac:(lra))).
Defined.

Lemma box_width_bounds_witness :
  0 <= 25 /\
  25 / 111.0 <= 25 / lng_divisor 12.9716 <= 25 / 1.11.
Proof.
  assert (H : 0 <= 25) by lra.
  split; [exact H|].
  exact (proj1 (box_width_bounds 12.9716 25 H)).
Defined.

Lemma seed_never_adds_witness :
  db seeded_world = Some (mkDatabase demo_docs 3 []) /\
  demo_docs <> [] /\
  stored (snd (seed_demo_data wildcard_search seeded_world)) = stored seeded_world /\
  calls (snd (seed_demo_data wildcard_search seeded_world)) = [CallCount].
Proof.
  assert (N : station (mkDatabase demo_docs 3 []) <> []) by discriminate.
  split; [reflexivity|]. split; [exact N|].
  destruct (seed_never_adds_to_a_stocked_collection wildcard_search seeded_world _
              eq_refl N) as [S [C _]].
  split; [exact S | exact C].
Defined.

(** The store that fails on the second insertion keeps the first. *)
Lemma partial_seed :
  seed_demo_data wildcard_search flaky_world =
  (Raise PyMongoError,
   mkWorld (Some (mkDatabase (firstn 1 demo_docs) 1 []))
     [CallCount; CallInsert; CallInsert]).
Proof. reflexivity. Qed.

Lemma seed_leaves_a_prefix_witness :
  stored flaky_world = [] /\
  exists j,
    (j <= 3)%nat /\
    map fields (stored (snd (seed_demo_data wildcard_search flaky_world))) =
      firstn j demo.
Proof.
  split; [reflexivity|].
  destruct (seed_leaves_a_prefix_of_the_demo_set wildcard_search flaky_world eq_refl)
    as [j [Hj [Hm _]]].
  exists j. split; [exact Hj | exact Hm].
Defined.

Lemma out_of_range_requests_witness :
  (1000 < 5000)%Z /\
  response_status
    (fst (GET_stations wildcard_search None None None None (Some 5000%Z)
            unconfigured_world)) = 422%Z /\
  91 > 90 /\
  response_status (fst (GET_stations_near wildcard_search 91 0 None seeded_world)) = 422%Z.
Proof.
  destruct (out_of_range_requests_are_refused wildcard_search unconfigured_world)
    as [L _].
  destruct (out_of_range_requests_are_refused wildcard_search seeded_world)
    as [_ [N _]].
  assert (A : (5000 < 1 \/ 1000 < 5000)%Z) by lia.
  assert (B : 91 < -90 \/ 90 < 91 \/ 0 < -180 \/ 180 < 0) by lra.
  split; [lia|]. split; [exact (proj1 (L None None None None 5000%Z A))|].
  split; [lra|]. exact (proj1 (N 91 0 None B)).
Defined.

Lemma seeded_world_is_valid : all_valid seeded_world.
Proof.
  apply all_valid_fields. exact demo_is_valid.
Qed.

Lemma schema_constraints_are_kept_witness :
  all_valid seeded_world /\
  Station_valid spot /\
  all_valid (snd (create_station spot seeded_world)) /\
  all_valid (snd (seed_demo_data wildcard_search seeded_world)).
Proof.
  assert (V : Station_valid spot) by (unfold Station_valid; cbn; lra).
  destruct (schema_constraints_are_kept wildcard_search seeded_world
              seeded_world_is_valid) as [_ [_ [_ [C [S _]]]]].
  split; [exact seeded_world_is_valid|]. split; [exact V|].
  split; [exact (C spot V) | exact S].
Defined.

Lemma create_then_get_round_trip_witness :
  db fresh_world = Some (mkDatabase [] 0 []) /\
  ids_issued fresh_world /\
  exists oid w1 w2,
    create_station spot fresh_world = (Return oid, w1) /\
    get_station oid w1 = (Return (mkStationOut oid spot), w2) /\
    stored w2 = [mkDoc oid spot].
Proof.
  assert (I : ids_issued fresh_world).
  { unfold ids_issued. cbn [db fresh_world issued station].
    split; [reflexivity | constructor]. }
  split; [reflexivity|]. split; [exact I|].
  exact (create_then_get_round_trip spot fresh_world _ eq_refl eq_refl I).
Defined.

Lemma smaller_limit_gives_a_prefix_witness :
  (1 <= 1 <= 200)%Z /\
  exists o1 o2 w1 w2,
    list_stations wildcard_search None None None None 1 seeded_world = (Return o1, w1) /\
    list_stations wildcard_search None None None None 200 seeded_world = (Return o2, w2) /\
    o1 = firstn (Z.to_nat 1) o2.
Proof.
  assert (H : (1 <= 1 <= 200)%Z) by lia.
  assert (A := list_all_seeded 1 ltac:(lia)).
  assert (B := list_all_seeded 200 ltac:(lia)).
  split; [exact H|]. do 4 eexists. split; [exact A|]. split; [exact B|].
  exact (smaller_limit_gives_a_prefix wildcard_search _ _ _ _ _ _ _ _ _ _ _ H A B).
Defined.

Lemma seeded_ids_issued : ids_issued seeded_world.
Proof.
  unfold ids_issued. cbn [db seeded_world issued station]. split; [reflexivity|].
  unfold demo_docs, demo. cbn [number_docs].
  constructor; [exists 0%N; split; [reflexivity | reflexivity]|].
  constructor; [exists 1%N; split; [reflexivity | reflexivity]|].
  constructor; [exists 2%N; split; [reflexivity | reflexivity]|].
  constructor.
Qed.

Lemma seeded_ids_distinct : NoDup (map _id (stored seeded_world)).
Proof.
  unfold stored. cbn [db seeded_world station].
  unfold demo_docs, demo. cbn [number_docs map _id].
  repeat (constructor; [cbn [In]; intuition discriminate|]). constructor.
Qed.

Lemma listed_stations_can_be_fetched_witness :
  db seeded_world = Some (mkDatabase demo_docs 3 []) /\
  ids_issued seeded_world /\
  NoDup (map _id (stored seeded_world)) /\
  exists outs w' o w'',
    list_stations wildcard_search None None None None 200 seeded_world =
      (Return outs, w') /\
    In o outs /\
    get_station (id o) w' = (Return o, w'').
Proof.
  assert (A := list_all_seeded 200 ltac:(lia)).
  split; [reflexivity|]. split; [exact seeded_ids_issued|].
  split; [exact seeded_ids_distinct|].
  assert (Ho : In (to_out (mkDoc (fresh_oid 1) (nth 1 demo spot)))
                 (map to_out (firstn (Z.to_nat 200) demo_docs))).
  { right. left. reflexivity. }
  destruct (listed_stations_can_be_fetched wildcard_search None None None None 200
              seeded_world (mkDatabase demo_docs 3 []) _ _ _
              eq_refl eq_refl seeded_ids_issued seeded_ids_distinct A Ho) as [w'' G].
  do 4 eexists. split; [exact A|]. split; [exact Ho | exact G].
Defined.

(** * Instances of the search with rounding

    Exact arithmetic is one rounding; it serves as the instance below. *)

Lemma exact_rounding : rounding (fun x => x).
Proof. unfold rounding. repeat split; intros; lra. Qed.

Lemma near_bengaluru_r :
  stations_near_r wildcard_search (fun x => x) cos 12.9716 77.5946 25 seeded_world =
  (Return (map to_out (firstn 1 demo_docs)),
   mkWorld (Some (mkDatabase demo_docs 3 [])) [CallFind]).
Proof.
  destruct (deltas_r (fun x => x) cos 12.9716 25 exact_rounding ltac:(lra))
    as [A [B [_ P]]].
  rewrite (stations_near_r_with_deltas wildcard_search _ _ _ _ _ _ _ seeded_world _
             eq_refl A B).
  cbn [fst snd next_outage outages station issued seeded_world calls app].
  unfold demo_docs, demo. cbn [number_docs filter].
  rewrite !matches_box_r. unfold in_box_r. cbn [fields latitude longitude].
  Rleb_eval. reflexivity.
Qed.

Lemma centre_station_is_returned_witness :
  rounding (fun x => x) /\
  -90 <= 12.9716 <= 90 /\ -180 <= 77.5946 <= 180 /\ 0 < 25 /\
  all_valid seeded_world /\
  exists outs w',
    stations_near_r wildcard_search (fun x => x) cos 12.9716 77.5946 25 seeded_world =
      (Return outs, w') /\
    In (to_out (mkDoc (fresh_oid 0) (hd spot demo))) outs.
Proof.
  assert (Hlat : -90 <= 12.9716 <= 90) by lra.
  assert (Hlng : -180 <= 77.5946 <= 180) by lra.
  assert (Hr : 0 < 25) by lra.
  split; [exact exact_rounding|].
  split; [exact Hlat|]. split; [exact Hlng|]. split; [exact Hr|].
  split; [exact seeded_world_is_valid|].
  destruct (centre_station_is_returned wildcard_search (fun x => x) cos
              12.9716 77.5946 25 exact_rounding Hlat Hlng Hr eq_refl eq_refl)
    as [dlat [dlng [_ [_ [_ [_ [_ H]]]]]]].
  apply (H seeded_world (mkDatabase demo_docs 3 []) []
           (mkDoc (fresh_oid 0) (hd spot demo)) (tl demo_docs)).
  - reflexivity.
  - reflexivity.
  - exact seeded_world_is_valid.
  - reflexivity.
  - cbn. lia.
  - reflexivity.
  - reflexivity.
Defined.

Lemma box_never_wraps_witness :
  exists outs w' dlat dlng,
    stations_near_r wildcard_search (fun x => x) cos 12.9716 77.5946 25 seeded_world =
      (Return outs, w') /\
    lat_delta_r (fun x => x) 25 = Return dlat /\
    lng_delta_r (fun x => x) cos 12.9716 25 = Return dlng /\
    Forall (fun o =>
              12.9716 - dlat <= latitude (station_of o) <= 12.9716 + dlat /\
              77.5946 - dlng <= longitude (station_of o) <= 77.5946 + dlng) outs.
Proof.
  destruct (proj1 (proj2 (box_never_wraps wildcard_search (fun x => x) cos
                            12.9716 77.5946 25))
              seeded_world _ _ near_bengaluru_r) as [dlat [dlng [A [B F]]]].
  do 4 eexists. split; [exact near_bengaluru_r|].
  split; [exact A|]. split; [exact B | exact F].
Defined.

Lemma get_station_store_call_witness :
  db seeded_world = Some (mkDatabase demo_docs 3 []) /\
  String.length "not-an-id" <> 24%nat /\
  get_station "not-an-id" seeded_world =
    (Raise (HTTPException 400 "Invalid station id"), seeded_world) /\
  well_formed_id "000000000000000000000000" = true /\
  calls (snd (get_station "000000000000000000000000" seeded_world)) = [CallFindOne].
Proof.
  assert (N : String.length "not-an-id" <> 24%nat) by discriminate.
  split; [reflexivity|]. split; [exact N|]. split.
  - exact (proj1 (get_station_store_call_depends_on_the_identifier "not-an-id"
                    seeded_world _ eq_refl) N).
  - split; [reflexivity|].
    exact (proj2 (get_station_store_call_depends_on_the_identifier
                    "000000000000000000000000" seeded_world _ eq_refl) eq_refl).
Defined.

Lemma stations_near_sound_and_complete_witness :
  exists outs w',
    stations_near_r wildcard_search (fun x => x) cos 12.9716 77.5946 25 seeded_world =
      (Return outs, w') /\
    (List.length outs <= 500)%nat.
Proof.
  do 2 eexists. split; [exact near_bengaluru_r|].
  destruct (stations_near_sound_and_complete wildcard_search _ _ _ _ _ _ _ _
              near_bengaluru_r) as [dlat [dlng [_ [_ [_ [L _]]]]]].
  exact L.
Defined.
